(** * MyAPI: a shallow embedding of the request dispatcher

    The development follows [src/MyAPI/MyAPI.py] and [src/main.py]:
    the response classes, the registry of endpoints built by
    [Registerer.add_endpoint], the matcher and binder [MyApp.find_endpoint]
    and the dispatcher [MyApp._handle_http].

    Python data is modelled as follows.
    - [str] and [bytes] are both Rocq strings (sequences of 8-bit
      characters); a [str] is held as its UTF-8 text.
    - a [dict] whose iteration order the code relies on is an association
      list with unique keys in insertion order; the keyword-argument
      dictionary [func_args], which is only read by key, is a [gmap].
    - an exception is a value of [exn]; code that may raise returns
      [result A]. *)

From Stdlib Require Import ZArith NArith String Ascii List Lia Bool DecimalString
  DecimalPos.
From stdpp Require Import gmap strings list fin_maps.

Set Warnings "-register-all".

Local Open Scope string_scope.
Local Open Scope Z_scope.

(** ** Exceptions *)

Module Exn.

(** The exception classes that the modelled code and the library calls it
    makes can raise, with the part of the built-in hierarchy above them. *)
Inductive exn : Type :=
| PyException
| ArithmeticError
| OverflowError
| ZeroDivisionError
| AttributeError
| LookupError
| IndexError
| KeyError
| RuntimeError
| NotImplementedError
| RecursionError
| TypeError
| ValueError
| JSONDecodeError
| UnicodeError
| UnicodeDecodeError
| UnicodeEncodeError.

Definition exn_eqb (a b : exn) : bool :=
  match a, b with
  | PyException, PyException
  | ArithmeticError, ArithmeticError
  | OverflowError, OverflowError
  | ZeroDivisionError, ZeroDivisionError
  | AttributeError, AttributeError
  | LookupError, LookupError
  | IndexError, IndexError
  | KeyError, KeyError
  | RuntimeError, RuntimeError
  | NotImplementedError, NotImplementedError
  | RecursionError, RecursionError
  | TypeError, TypeError
  | ValueError, ValueError
  | JSONDecodeError, JSONDecodeError
  | UnicodeError, UnicodeError
  | UnicodeDecodeError, UnicodeDecodeError
  | UnicodeEncodeError, UnicodeEncodeError => true
  | _, _ => false
  end.

(** The direct base class; [PyException] stands for the root. *)
Definition base (e : exn) : option exn :=
  match e with
  | PyException => None
  | ArithmeticError => Some PyException
  | OverflowError => Some ArithmeticError
  | ZeroDivisionError => Some ArithmeticError
  | AttributeError => Some PyException
  | LookupError => Some PyException
  | IndexError => Some LookupError
  | KeyError => Some LookupError
  | RuntimeError => Some PyException
  | NotImplementedError => Some RuntimeError
  | RecursionError => Some RuntimeError
  | TypeError => Some PyException
  | ValueError => Some PyException
  | JSONDecodeError => Some ValueError
  | UnicodeError => Some ValueError
  | UnicodeDecodeError => Some UnicodeError
  | UnicodeEncodeError => Some UnicodeError
  end.

(** [isinstance e cls]: [e]'s class is [cls] or derives from it.  The
    hierarchy above is at most four classes deep. *)
Fixpoint isinstance_fuel (fuel : nat) (e cls : exn) : bool :=
  exn_eqb e cls ||
  match fuel with
  | O => false
  | S fuel' =>
      match base e with
      | Some b => isinstance_fuel fuel' b cls
      | None => false
      end
  end.

Definition isinstance (e cls : exn) : bool := isinstance_fuel 4 e cls.

(** [except (c1, c2, ...)]: does the clause catch [e]? *)
Definition caught_by (classes : list exn) (e : exn) : bool :=
  existsb (isinstance e) classes.

End Exn.
Export Exn.

(** ** The error monad *)

Definition result (A : Type) : Type := (exn + A)%type.

Definition raise {A} (e : exn) : result A := inl e.

#[global] Instance result_ret : MRet result := fun A a => inr a.
#[global] Instance result_bind : MBind result := fun A B k m =>
  match m with
  | inl e => inl e
  | inr a => k a
  end.

(** [try: m except (classes): h] *)
Definition try_except {A} (m : result A) (classes : list exn)
    (h : exn -> result A) : result A :=
  match m with
  | inl e => if caught_by classes e then h e else inl e
  | inr a => inr a
  end.

(** ** Python values *)

(** The values that travel through the dispatcher: what [json.loads]
    produces, what the type callables [int] and [list] produce from a
    path segment or a query value, and what [json.dumps] consumes.  A float
    is carried as the decimal text it was read from; its arithmetic is
    not part of the model. *)
Inductive value : Type :=
| VNone
| VBool (b : bool)
| VInt (z : Z)
| VFloat (lexeme : string)
| VStr (s : string)
| VBytes (b : string)
| VList (l : list value)
| VDict (d : list (string * value)).

(** [x is None] *)
Definition is_None (v : value) : bool :=
  match v with VNone => true | _ => false end.

(** ** Strings *)

Module PyStr.

Definition code (c : ascii) : N := N_of_ascii c.

Definition chr (n : N) : ascii := ascii_of_N n.

(** [s.split(sep)] for a one-character separator: never empty. *)
Fixpoint split (sep : ascii) (s : string) : list string :=
  match s with
  | EmptyString => [EmptyString]
  | String c s' =>
      if Ascii.eqb c sep then EmptyString :: split sep s'
      else match split sep s' with
           | h :: t => String c h :: t
           | [] => [String c EmptyString]
           end
  end.

(** [s.split(sep, 1)]: [None] when [sep] does not occur, else the text
    before and after its first occurrence. *)
Fixpoint split_once (sep : ascii) (s : string) : option (string * string) :=
  match s with
  | EmptyString => None
  | String c s' =>
      if Ascii.eqb c sep then Some (EmptyString, s')
      else match split_once sep s' with
           | Some (h, t) => Some (String c h, t)
           | None => None
           end
  end.

(** [c in s] for a character. *)
Fixpoint contains (c : ascii) (s : string) : bool :=
  match s with
  | EmptyString => false
  | String d s' => Ascii.eqb c d || contains c s'
  end.

Fixpoint lstrip (p : ascii -> bool) (s : string) : string :=
  match s with
  | EmptyString => EmptyString
  | String c s' => if p c then lstrip p s' else s
  end.

Fixpoint rstrip (p : ascii -> bool) (s : string) : string :=
  match s with
  | EmptyString => EmptyString
  | String c s' =>
      match rstrip p s' with
      | EmptyString => if p c then EmptyString else String c EmptyString
      | r => String c r
      end
  end.

Fixpoint remove (p : ascii -> bool) (s : string) : string :=
  match s with
  | EmptyString => EmptyString
  | String c s' => if p c then remove p s' else String c (remove p s')
  end.

Fixpoint forallb (p : ascii -> bool) (s : string) : bool :=
  match s with
  | EmptyString => true
  | String c s' => p c && forallb p s'
  end.

Fixpoint map (f : ascii -> ascii) (s : string) : string :=
  match s with
  | EmptyString => EmptyString
  | String c s' => String (f c) (map f s')
  end.

Definition is_digit (c : ascii) : bool :=
  ((48 <=? code c) && (code c <=? 57))%N.

Definition is_alpha (c : ascii) : bool :=
  (((65 <=? code c) && (code c <=? 90)) || ((97 <=? code c) && (code c <=? 122)))%N.

(** The value of a hexadecimal digit. *)
Definition hex_value (c : ascii) : option N :=
  let n := code c in
  if is_digit c then Some (n - 48)%N
  else if ((65 <=? n) && (n <=? 70))%N then Some (n - 55)%N
  else if ((97 <=? n) && (n <=? 102))%N then Some (n - 87)%N
  else None.

(** One lower-case hexadecimal digit. *)
Definition hex_digit (n : N) : ascii :=
  if (n <? 10)%N then chr (48 + n) else chr (87 + n).

(** [str(z)] for an integer of at most 4300 digits
    ([sys.int_info.default_max_str_digits]); for a longer one Python raises
    a [ValueError], which this total function does not model. *)
Definition of_Z (z : Z) : string :=
  DecimalString.NilZero.string_of_int (Z.to_int z).

End PyStr.

(** ** Dictionaries in insertion order *)

Module Dict.

(** [d[k] = v]: a present key keeps its place, a new one goes last. *)
Fixpoint set {A} (d : list (string * A)) (k : string) (v : A)
    : list (string * A) :=
  match d with
  | [] => [(k, v)]
  | (k', v') :: d' =>
      if String.eqb k' k then (k, v) :: d' else (k', v') :: set d' k v
  end.

(** [d.get(k)] *)
Fixpoint get {A} (d : list (string * A)) (k : string) : option A :=
  match d with
  | [] => None
  | (k', v) :: d' => if String.eqb k' k then Some v else get d' k
  end.

(** [list(d.keys())] *)
Definition keys {A} (d : list (string * A)) : list string := fst <$> d.

End Dict.

(** ** UTF-8 *)

Module Utf8.
Import PyStr.
Local Open Scope N_scope.

Definition is_cont (c : ascii) : bool := (128 <=? code c) && (code c <=? 191).

Definition low6 (c : ascii) : N := code c mod 64.

(** [b.decode('utf-8', 'surrogatepass')]: the code points of a byte string,
    or [None] where Python raises [UnicodeDecodeError].  Overlong forms and
    values above U+10FFFF are rejected; with [surrogatepass] the three-byte
    forms of U+D800..U+DFFF are let through. *)
Fixpoint decode (s : string) : option (list N) :=
  match s with
  | EmptyString => Some []
  | String b0 s1 =>
      let n0 := code b0 in
      if n0 <? 128 then cons n0 <$> decode s1
      else if (194 <=? n0) && (n0 <=? 223) then
        match s1 with
        | String b1 s2 =>
            if is_cont b1 then cons ((n0 mod 32) * 64 + low6 b1) <$> decode s2
            else None
        | _ => None
        end
      else if (224 <=? n0) && (n0 <=? 239) then
        match s1 with
        | String b1 (String b2 s3) =>
            let cp := (n0 mod 16) * 4096 + low6 b1 * 64 + low6 b2 in
            if is_cont b1 && is_cont b2 && (2048 <=? cp)
            then cons cp <$> decode s3 else None
        | _ => None
        end
      else if (240 <=? n0) && (n0 <=? 244) then
        match s1 with
        | String b1 (String b2 (String b3 s4)) =>
            let cp := (n0 mod 8) * 262144 + low6 b1 * 4096
                      + low6 b2 * 64 + low6 b3 in
            if is_cont b1 && is_cont b2 && is_cont b3
               && (65536 <=? cp) && (cp <=? 1114111)
            then cons cp <$> decode s4 else None
        | _ => None
        end
      else None
  end.

Definition encode_point (cp : N) : string :=
  if cp <? 128 then String (chr cp) EmptyString
  else if cp <? 2048 then
    String (chr (192 + cp / 64)) (String (chr (128 + cp mod 64)) EmptyString)
  else if cp <? 65536 then
    String (chr (224 + cp / 4096))
      (String (chr (128 + (cp / 64) mod 64))
         (String (chr (128 + cp mod 64)) EmptyString))
  else
    String (chr (240 + cp / 262144))
      (String (chr (128 + (cp / 4096) mod 64))
         (String (chr (128 + (cp / 64) mod 64))
            (String (chr (128 + cp mod 64)) EmptyString))).

(** The UTF-8 text of a sequence of code points. *)
Fixpoint encode (l : list N) : string :=
  match l with
  | [] => EmptyString
  | cp :: l' => encode_point cp ++ encode l'
  end.

(** The code points of a [str] held as UTF-8 text; a byte that is not part
    of a well-formed sequence is read as the code point of its own value. *)
Fixpoint points (fuel : nat) (s : string) : list N :=
  match fuel, s with
  | O, _ | _, EmptyString => []
  | S fuel', String b0 s1 =>
      let n0 := code b0 in
      let take (k : nat) : list N :=
        match decode (substring 0 k s) with
        | Some [cp] => cp :: points fuel' (substring k (String.length s - k) s)
        | _ => n0 :: points fuel' s1
        end in
      if n0 <? 128 then n0 :: points fuel' s1
      else if n0 <? 224 then take 2%nat
      else if n0 <? 240 then take 3%nat
      else take 4%nat
  end.

Definition code_points (s : string) : list N := points (String.length s) s.

End Utf8.

(** ** The [json] library *)

Module Json.
Import PyStr.

(** *** [json.dumps] with its default options *)

Definition hex4 (n : N) : string :=
  String (hex_digit (n / 4096 mod 16))
    (String (hex_digit (n / 256 mod 16))
       (String (hex_digit (n / 16 mod 16))
          (String (hex_digit (n mod 16)) EmptyString))).

Definition backslash : ascii := chr 92.
Definition quote : ascii := chr 34.

Definition u_escape (n : N) : string :=
  String backslash (String "u" (hex4 n)).

(** One character of a string under [ensure_ascii=True]: printable ASCII
    other than the quote and the backslash is kept, the rest is escaped
    (a code point above U+FFFF as a surrogate pair). *)
Definition escape_point (cp : N) : string :=
  if (cp =? 92)%N then String backslash (String backslash EmptyString)
  else if (cp =? 34)%N then String backslash (String quote EmptyString)
  else if ((32 <=? cp) && (cp <=? 126))%N then String (chr cp) EmptyString
  else if (cp =? 8)%N then String backslash "b"
  else if (cp =? 12)%N then String backslash "f"
  else if (cp =? 10)%N then String backslash "n"
  else if (cp =? 13)%N then String backslash "r"
  else if (cp =? 9)%N then String backslash "t"
  else if (65536 <=? cp)%N then
    let v := (cp - 65536)%N in
    u_escape (55296 + v / 1024) ++ u_escape (56320 + v mod 1024)
  else u_escape cp.

Definition encode_string (s : string) : string :=
  String quote
    (fold_right (fun cp acc => escape_point cp ++ acc)
       (String quote EmptyString) (Utf8.code_points s)).

(** [sep.join(items)] *)
Fixpoint join (sep : string) (items : list string) : string :=
  match items with
  | [] => EmptyString
  | [x] => x
  | x :: rest => x ++ sep ++ join sep rest
  end.

(** [json.dumps(v)].  A [bytes] object anywhere in [v] is not serialisable
    and raises [TypeError].  A float is written with the decimal text it
    carries.  Two errors of [json.dumps] are not modelled: the
    [ValueError] for an integer of more than [max_str_digits] digits and
    the [RecursionError] for a value nested too deep. *)
Fixpoint dumps (v : value) : result string :=
  match v with
  | VNone => mret "null"
  | VBool true => mret "true"
  | VBool false => mret "false"
  | VInt z => mret (of_Z z)
  | VFloat lexeme => mret lexeme
  | VStr s => mret (encode_string s)
  | VBytes _ => raise TypeError
  | VList l =>
      items ← (fix each (l : list value) : result (list string) :=
                 match l with
                 | [] => mret []
                 | x :: l' => s ← dumps x; r ← each l'; mret (s :: r)
                 end) l;
      mret ("[" ++ join ", " items ++ "]")
  | VDict d =>
      items ← (fix each (d : list (string * value)) : result (list string) :=
                 match d with
                 | [] => mret []
                 | (k, x) :: d' =>
                     s ← dumps x; r ← each d';
                     mret ((encode_string k ++ ": " ++ s) :: r)
                 end) d;
      mret ("{" ++ join ", " items ++ "}")
  end.

(** *** [json.loads] on a byte string *)

Inductive encoding : Type :=
| UTF8 | UTF8_SIG | UTF16 | UTF16_BE | UTF16_LE | UTF32 | UTF32_BE | UTF32_LE.

Definition byte_at (b : string) (i : nat) : N :=
  match String.get i b with
  | Some c => code c
  | None => 0%N
  end.

Definition starts_with (codes : list N) (b : string) : bool :=
  bool_decide (take (List.length codes) (code <$> list_ascii_of_string b) = codes).

(** [json.detect_encoding]: byte-order marks first, then the position of
    NUL bytes among the first four (or the only two) bytes. *)
Definition detect_encoding (b : string) : encoding :=
  if starts_with [0; 0; 254; 255]%N b || starts_with [255; 254; 0; 0]%N b then UTF32
  else if starts_with [254; 255]%N b || starts_with [255; 254]%N b then UTF16
  else if starts_with [239; 187; 191]%N b then UTF8_SIG
  else if (4 <=? String.length b)%nat then
    if (byte_at b 0 =? 0)%N then
      (if (byte_at b 1 =? 0)%N then UTF32_BE else UTF16_BE)
    else if (byte_at b 1 =? 0)%N then
      (if (byte_at b 2 =? 0)%N && (byte_at b 3 =? 0)%N then UTF32_LE else UTF16_LE)
    else UTF8
  else if (String.length b =? 2)%nat then
    if (byte_at b 0 =? 0)%N then UTF16_BE
    else if (byte_at b 1 =? 0)%N then UTF16_LE
    else UTF8
  else UTF8.

(** [b.decode(detect_encoding(b), 'surrogatepass')].  The UTF-8 codecs are
    modelled.  The UTF-16 and UTF-32 codecs are not: a body that
    [detect_encoding] sends to one of them is reported as undecodable, and
    nothing below is stated about such a body. *)
Definition decode_bytes (b : string) : result (list N) :=
  let utf8 (b : string) : result (list N) :=
    match Utf8.decode b with
    | Some text => mret text
    | None => raise UnicodeDecodeError
    end in
  match detect_encoding b with
  | UTF8 => utf8 b
  | UTF8_SIG => utf8 (substring 3 (String.length b - 3) b)
  | _ => raise UnicodeDecodeError
  end.

Definition is_ws (cp : N) : bool :=
  ((cp =? 32) || (cp =? 9) || (cp =? 10) || (cp =? 13))%N.

Fixpoint skip_ws (t : list N) : list N :=
  match t with
  | cp :: t' => if is_ws cp then skip_ws t' else t
  | [] => []
  end.

Definition is_digit_point (cp : N) : bool := ((48 <=? cp) && (cp <=? 57))%N.

Fixpoint span_digits (t : list N) : list N * list N :=
  match t with
  | cp :: t' =>
      if is_digit_point cp then let '(ds, r) := span_digits t' in (cp :: ds, r)
      else ([], t)
  | [] => ([], [])
  end.

Definition Z_of_digits (ds : list N) : Z :=
  fold_left (fun acc d => 10 * acc + Z.of_N (d - 48)) ds 0.

(** The default limit on the number of digits of a decimal integer
    literal ([sys.int_info.default_max_str_digits]). *)
Definition max_str_digits : nat := 4300.

Definition text_of (t : list N) : string :=
  string_of_list_ascii (chr <$> t).

(** The scanner's number rule: an optional minus, [0] or a digit string
    without a leading zero, an optional fraction and an optional exponent.
    Without fraction and exponent the literal is an integer. *)
Definition match_number (t : list N) : result (value * list N) :=
  let '(neg, t1) := match t with
                    | 45%N :: r => (true, r)
                    | _ => (false, t)
                    end in
  let integer :=
    match t1 with
    | 48%N :: r => Some ([48%N], r)
    | _ => match span_digits t1 with
           | ([], _) => None
           | (ds, r) => Some (ds, r)
           end
    end in
  match integer with
  | None => raise JSONDecodeError
  | Some (ds, t2) =>
      let '(frac, t3) :=
        match t2 with
        | 46%N :: r =>
            match span_digits r with
            | ([], _) => ([], t2)
            | (fs, r') => (46%N :: fs, r')
            end
        | _ => ([], t2)
        end in
      let '(expo, t4) :=
        match t3 with
        | e :: r =>
            if ((e =? 101) || (e =? 69))%N then
              let '(sign, r1) := match r with
                                 | s :: r1 =>
                                     if ((s =? 43) || (s =? 45))%N
                                     then ([s], r1) else ([], r)
                                 | [] => ([], r)
                                 end in
              match span_digits r1 with
              | ([], _) => ([], t3)
              | (es, r') => (e :: sign ++ es, r')
              end
            else ([], t3)
        | [] => ([], t3)
        end in
      match frac, expo with
      | [], [] =>
          if (max_str_digits <? List.length ds)%nat then raise ValueError
          else mret (VInt (if neg then - Z_of_digits ds else Z_of_digits ds), t4)
      | _, _ =>
          mret (VFloat (text_of ((if neg then [45%N] else []) ++ ds ++ frac ++ expo)), t4)
      end
  end.

(** Does the text start with the given ASCII word?  Returns the rest. *)
Fixpoint expect (word : list N) (t : list N) : option (list N) :=
  match word, t with
  | [], _ => Some t
  | w :: word', cp :: t' => if (w =? cp)%N then expect word' t' else None
  | _ :: _, [] => None
  end.

Definition word (s : string) : list N := code <$> list_ascii_of_string s.

Definition hex_point (cp : N) : option N :=
  if (cp <? 128)%N then hex_value (chr cp) else None.

Definition is_high_surrogate (n : N) : bool := ((55296 <=? n) && (n <=? 56319))%N.
Definition is_low_surrogate (n : N) : bool := ((56320 <=? n) && (n <=? 57343))%N.

(** Four hexadecimal digits after a backslash-u. *)
Definition scan_hex4 (t : list N) : option (N * list N) :=
  match t with
  | a :: b :: c :: d :: r =>
      match hex_point a, hex_point b, hex_point c, hex_point d with
      | Some x, Some y, Some z, Some w =>
          Some ((x * 4096 + y * 256 + z * 16 + w)%N, r)
      | _, _, _, _ => None
      end
  | _ => None
  end.

(** The body of a string literal, after its opening quote (strict mode:
    a control character inside the literal is an error). *)
Fixpoint scanstring (fuel : nat) (t : list N) (acc : list N)
    : result (string * list N) :=
  match fuel with
  | O => raise RecursionError
  | S fuel' =>
      match t with
      | [] => raise JSONDecodeError
      | cp :: t' =>
          if (cp =? 34)%N then mret (Utf8.encode (rev acc), t')
          else if (cp =? 92)%N then
            match t' with
            | [] => raise JSONDecodeError
            | e :: r =>
                let plain (c : N) := scanstring fuel' r (c :: acc) in
                if (e =? 34)%N then plain 34%N
                else if (e =? 92)%N then plain 92%N
                else if (e =? 47)%N then plain 47%N
                else if (e =? 98)%N then plain 8%N
                else if (e =? 102)%N then plain 12%N
                else if (e =? 110)%N then plain 10%N
                else if (e =? 114)%N then plain 13%N
                else if (e =? 116)%N then plain 9%N
                else if (e =? 117)%N then
                  match scan_hex4 r with
                  | None => raise JSONDecodeError
                  | Some (u, r1) =>
                      let single := scanstring fuel' r1 (u :: acc) in
                      if is_high_surrogate u then
                        match r1 with
                        | 92%N :: 117%N :: r2 =>
                            match scan_hex4 r2 with
                            | Some (u2, r3) =>
                                if is_low_surrogate u2 then
                                  scanstring fuel' r3
                                    ((65536 + (u - 55296) * 1024 + (u2 - 56320))%N :: acc)
                                else single
                            | None => single
                            end
                        | _ => single
                        end
                      else single
                  end
                else raise JSONDecodeError
            end
          else if (cp <? 32)%N then raise JSONDecodeError
          else scanstring fuel' t' (cp :: acc)
      end
  end.

(** The scanner: one value at the head of the text, and the text after
    it.  The fuel is the length of the text and never runs out: the
    [RecursionError] that [json.loads] raises on a text nested deeper than
    the interpreter's recursion limit is not modelled. *)
Fixpoint scan_once (fuel : nat) (t : list N) : result (value * list N) :=
  match fuel with
  | O => raise RecursionError
  | S fuel' =>
      let parse_array :=
        fix items (n : nat) (t : list N) (acc : list value) {struct n}
            : result (value * list N) :=
          match n with
          | O => raise RecursionError
          | S n' =>
              '(v, t1) ← scan_once fuel' t;
              match skip_ws t1 with
              | 93%N :: r => mret (VList (rev (v :: acc)), r)
              | 44%N :: r => items n' (skip_ws r) (v :: acc)
              | _ => raise JSONDecodeError
              end
          end in
      let parse_object :=
        fix pairs (n : nat) (t : list N) (acc : list (string * value)) {struct n}
            : result (value * list N) :=
          match n with
          | O => raise RecursionError
          | S n' =>
              match t with
              | 34%N :: t0 =>
                  '(k, t1) ← scanstring (S (List.length t0)) t0 [];
                  match skip_ws t1 with
                  | 58%N :: t2 =>
                      '(v, t3) ← scan_once fuel' (skip_ws t2);
                      let acc' := Dict.set acc k v in
                      match skip_ws t3 with
                      | 125%N :: r => mret (VDict acc', r)
                      | 44%N :: r => pairs n' (skip_ws r) acc'
                      | _ => raise JSONDecodeError
                      end
                  | _ => raise JSONDecodeError
                  end
              | _ => raise JSONDecodeError
              end
          end in
      match t with
      | [] => raise JSONDecodeError
      | 34%N :: r => '(s, r') ← scanstring (S (List.length r)) r []; mret (VStr s, r')
      | 123%N :: r =>
          match skip_ws r with
          | 125%N :: r' => mret (VDict [], r')
          | r' => parse_object fuel r' []
          end
      | 91%N :: r =>
          match skip_ws r with
          | 93%N :: r' => mret (VList [], r')
          | r' => parse_array fuel r' []
          end
      | cp :: _ =>
          let constant (w : string) (v : value) (otherwise : result (value * list N)) :=
            match expect (word w) t with
            | Some r => mret (v, r)
            | None => otherwise
            end in
          if (cp =? 110)%N then constant "null" VNone (raise JSONDecodeError)
          else if (cp =? 116)%N then constant "true" (VBool true) (raise JSONDecodeError)
          else if (cp =? 102)%N then constant "false" (VBool false) (raise JSONDecodeError)
          else if (cp =? 78)%N then constant "NaN" (VFloat "NaN") (raise JSONDecodeError)
          else if (cp =? 73)%N then constant "Infinity" (VFloat "Infinity") (raise JSONDecodeError)
          else if (cp =? 45)%N then constant "-Infinity" (VFloat "-Infinity") (match_number t)
          else match_number t
      end
  end.

(** [JSONDecoder.decode]: one value, surrounded by optional white space,
    and nothing else. *)
Definition decode (t : list N) : result value :=
  '(v, r) ← scan_once (S (List.length t)) (skip_ws t);
  match skip_ws r with
  | [] => mret v
  | _ => raise JSONDecodeError
  end.

Definition loads (b : string) : result value :=
  t ← decode_bytes b; decode t.

End Json.

(** ** [urllib.parse] *)

Module Urllib.
Import PyStr.

Definition is_c0_control_or_space (c : ascii) : bool := (code c <=? 32)%N.

Definition is_unsafe_url_byte (c : ascii) : bool :=
  ((code c =? 9) || (code c =? 10) || (code c =? 13))%N.

Definition is_scheme_char (c : ascii) : bool :=
  is_alpha c || is_digit c || ((code c =? 43) || (code c =? 45) || (code c =? 46))%N.

Definition head_is (p : ascii -> bool) (s : string) : bool :=
  match s with
  | String c _ => p c
  | EmptyString => false
  end.

Definition is_netloc_end (c : ascii) : bool :=
  ((code c =? 47) || (code c =? 63) || (code c =? 35))%N.

(** The text before the first character satisfying [p], and the text from
    that character on. *)
Fixpoint break (p : ascii -> bool) (s : string) : string * string :=
  match s with
  | EmptyString => (EmptyString, EmptyString)
  | String c s' =>
      if p c then (EmptyString, s)
      else let '(h, t) := break p s' in (String c h, t)
  end.

(** [urlsplit(url).path] for a [str]: leading control characters and
    spaces and all tabs and line breaks are dropped, then a scheme, an
    authority after [//], a fragment and a query are split off in this
    order.  An authority with only one of the two square brackets is a
    [ValueError]; the further checks of an authority (a bracketed host must
    be an IP literal, a non-ASCII host must survive normalisation) are not
    modelled. *)
Definition urlsplit_path (url : string) : result string :=
  let url := lstrip is_c0_control_or_space url in
  let url := remove is_unsafe_url_byte url in
  let url :=
    match split_once ":" url with
    | Some (scheme, rest) =>
        if head_is is_alpha scheme && forallb is_scheme_char scheme
        then rest else url
    | None => url
    end in
  url ←
    match url with
    | String "/" (String "/" after) =>
        let '(netloc, rest) := break is_netloc_end after in
        if xorb (contains "[" netloc) (contains "]" netloc)
        then raise ValueError else mret rest
    | _ => mret url
    end;
  let url := match split_once "#" url with
             | Some (before, _) => before
             | None => url
             end in
  let url := match split_once "?" url with
             | Some (before, _) => before
             | None => url
             end in
  mret url.

(** [unquote_to_bytes]: every [%XX] with two hexadecimal digits becomes the
    byte it names; a percent sign not followed by two such digits is kept. *)
Fixpoint unquote_to_bytes (s : string) : string :=
  match s with
  | EmptyString => EmptyString
  | String c s' =>
      if (code c =? 37)%N then
        match s' with
        | String a (String b rest) =>
            match hex_value a, hex_value b with
            | Some x, Some y => String (chr (16 * x + y)) (unquote_to_bytes rest)
            | _, _ => String c (unquote_to_bytes s')
            end
        | _ => String c (unquote_to_bytes s')
        end
      else String c (unquote_to_bytes s')
  end.

Definition plus_to_space (c : ascii) : ascii :=
  if (code c =? 43)%N then chr 32 else c.

(** [parse_qsl(qs)] for [bytes] with the default options: fields are
    separated by [&]; an empty field, a field without [=] and a field with
    an empty value are dropped.  The query string is taken to be ASCII:
    the [UnicodeError] that [parse_qsl] raises on other bytes is not
    modelled. *)
Definition parse_qsl (qs : string) : list (string * string) :=
  match qs with
  | EmptyString => []
  | _ =>
      omap (fun name_value =>
              match name_value with
              | EmptyString => None
              | _ =>
                  let '(name, value) :=
                    match split_once "=" name_value with
                    | Some nv => nv
                    | None => (name_value, EmptyString)
                    end in
                  match value with
                  | EmptyString => None
                  | _ => Some (unquote_to_bytes (map plus_to_space name),
                               unquote_to_bytes (map plus_to_space value))
                  end
              end)
           (split "&" qs)
  end.

(** [parse_qs(qs)]: each name with the list of its values, names in the
    order of their first occurrence. *)
Definition parse_qs (qs : string) : list (string * list string) :=
  fold_left
    (fun (parsed_result : list (string * list string)) '((name, value) : string * string) =>
       match Dict.get parsed_result name with
       | Some values => Dict.set parsed_result name (values ++ [value])%list
       | None => Dict.set parsed_result name [value]
       end)
    (parse_qsl qs) [].

End Urllib.

(** ** [re.findall] for the placeholder pattern *)

Module Re.
Import PyStr.

(** [\w], on ASCII text: a letter, a digit or the underscore.  The word
    characters outside ASCII, which the pattern also matches in a [str],
    are not modelled. *)
Definition is_word (c : ascii) : bool :=
  is_alpha c || is_digit c || (code c =? 95)%N.

(** The scan for an opening brace, one or more word characters and a closing
    brace.  [inside] is [Some w] after an opening brace followed by
    the word characters [w] (in reverse). *)
Fixpoint scan (s : string) (inside : option (list ascii)) : list string :=
  match s with
  | EmptyString => []
  | String c s' =>
      if (code c =? 123)%N then scan s' (Some [])
      else match inside with
           | None => scan s' None
           | Some w =>
               if is_word c then scan s' (Some (c :: w))
               else if (code c =? 125)%N then
                 match w with
                 | [] => scan s' None
                 | _ => string_of_list_ascii (rev w) :: scan s' None
                 end
               else scan s' None
           end
  end.

(** [re.findall(r"{(\w+)}", s)]: the names between braces, left to right. *)
Definition findall_placeholders (s : string) : list string := scan s None.

End Re.

(** ** Built-in callables *)

Module Builtins.
Import PyStr.

(** What the binder hands to a type callable: a path segment is a [str],
    a query value is a [bytes] object. *)
Inductive raw : Type :=
| Str (s : string)
| Bytes (b : string).

Definition raw_text (x : raw) : string :=
  match x with Str s => s | Bytes b => b end.

Definition is_space (c : ascii) : bool :=
  (((9 <=? code c) && (code c <=? 13)) || (code c =? 32))%N.

Definition is_underscore (c : ascii) : bool := (code c =? 95)%N.

(** A run of digits and underscores is well formed when it is not empty
    and every underscore stands between two digits. *)
Fixpoint digits_ok (s : string) (prev_digit : bool) : bool :=
  match s with
  | EmptyString => prev_digit
  | String c s' =>
      if is_digit c then digits_ok s' true
      else if is_underscore c then prev_digit && digits_ok s' false
      else false
  end.

Definition Z_of_decimal (s : string) : Z :=
  fold_left (fun acc c => 10 * acc + Z.of_N (code c - 48))
    (list_ascii_of_string s) 0.

(** [int(x)] for a [str] or [bytes] literal in base ten: optional white
    space around an optional sign and digits, which single underscores may
    separate; more than [Json.max_str_digits] digits are refused.  Anything
    else is a [ValueError].  For a [str] Python also accepts the decimal
    digits and the spaces outside ASCII; here every literal is ASCII. *)
Definition int (x : raw) : result value :=
  let s := lstrip is_space (raw_text x) in
  let '(neg, s) :=
    match s with
    | String c r =>
        if (code c =? 43)%N then (false, r)
        else if (code c =? 45)%N then (true, r)
        else (false, s)
    | EmptyString => (false, s)
    end in
  let '(body, rest) :=
    Urllib.break (fun c => negb (is_digit c || is_underscore c)) s in
  let digits := remove is_underscore body in
  if digits_ok body false && forallb is_space rest
     && (String.length digits <=? Json.max_str_digits)%nat
  then mret (VInt (if neg then - Z_of_decimal digits else Z_of_decimal digits))
  else raise ValueError.

(** [list(x)], which is what calling the alias [list[float | int]] does:
    the characters of a [str], the byte values of a [bytes] object. *)
Definition list_ (x : raw) : result value :=
  match x with
  | Str s => mret (VList ((fun cp => VStr (Utf8.encode_point cp)) <$> Utf8.code_points s))
  | Bytes b => mret (VList ((fun c => VInt (Z.of_N (code c))) <$> list_ascii_of_string b))
  end.

(** [inspect.Parameter.empty], the annotation of a parameter without one:
    a class whose constructor takes no argument. *)
Definition Parameter_empty (x : raw) : result value := raise TypeError.

(** [len(v)] *)
Definition len (v : value) : result Z :=
  match v with
  | VStr s => mret (Z.of_nat (List.length (Utf8.code_points s)))
  | VBytes b => mret (Z.of_nat (String.length b))
  | VList l => mret (Z.of_nat (List.length l))
  | VDict d => mret (Z.of_nat (List.length d))
  | VNone | VBool _ | VInt _ | VFloat _ => raise TypeError
  end.

(** [range(a, b)] as a list. *)
Definition range (a b : Z) : list Z :=
  (fun i => a + Z.of_nat i) <$> seq 0 (Z.to_nat (b - a)).

(** The sign of a float from its decimal text.  The text is negative when
    it starts with a minus; the double it denotes is below zero unless the
    text rounds to zero, which happens when its magnitude is at most
    2^-1075, half the least positive double. *)
Definition float_lt_zero (lexeme : string) : bool :=
  match lexeme with
  | String c r =>
      if (code c =? 45)%N then
        if String.eqb r "Infinity" then true
        else
          let '(mant, expo) :=
            Urllib.break (fun c => ((code c =? 101) || (code c =? 69))%N) r in
          let '(whole, frac) := Urllib.break (fun c => (code c =? 46)%N) mant in
          let frac := remove (fun c => negb (is_digit c)) frac in
          let m := Z_of_decimal (whole ++ frac) in
          let e10 :=
            match expo with
            | String _ (String s ds) =>
                if (code s =? 45)%N then - Z_of_decimal ds
                else if (code s =? 43)%N then Z_of_decimal ds
                else Z_of_decimal (String s ds)
            | _ => 0
            end in
          let e := e10 - Z.of_nat (String.length frac) in
          if 0 <=? e then 0 <? m
          else 10 ^ (- e) <? m * 2 ^ 1075
      else false
  | EmptyString => false
  end.

(** [v < 0] *)
Definition lt_zero (v : value) : result bool :=
  match v with
  | VInt z => mret (z <? 0)
  | VBool _ => mret false
  | VFloat lexeme => mret (float_lt_zero lexeme)
  | VNone | VStr _ | VBytes _ | VList _ | VDict _ => raise TypeError
  end.

(** [operator.index(v)]: the integer a [range] bound must be. *)
Definition index (v : value) : result Z :=
  match v with
  | VInt z => mret z
  | VBool b => mret (if b then 1 else 0)
  | _ => raise TypeError
  end.

End Builtins.

(** ** [MyAPI.py] *)

Module MyAPI.
Import Builtins.

(** *** Connections and responses *)

(** The entries of the ASGI scope that the application reads. *)
Record Scope : Type := {
  scope_type : string;
  scope_path : string;
  scope_query_string : string;
  scope_method : string
}.

(** The event that [receive()] yields; its [body] entry may be missing. *)
Record Event : Type := {
  event_body : option string
}.

(** The events handed to [send]. *)
Inductive Message : Type :=
| http_response_start (status : Z) (headers : list (string * string))
| http_response_body (body : string) (more_body : bool).

Record HttpResponse : Type := {
  body : string;
  status_code : Z;
  headers : list (string * string)
}.

Definition default_headers : list (string * string) :=
  [("content-type", "text/plain")].

(** [HttpResponse.__init__]: [headers if headers else [...]].  [None] and
    an empty collection are both false. *)
Definition HttpResponse_init (body : string) (status_code : Z)
    (headers : option (list (string * string))) : HttpResponse :=
  {| body := body;
     status_code := status_code;
     headers := match headers with
                | Some (h :: t) => h :: t
                | Some [] | None => default_headers
                end |}.

(** [JSONResponse.__init__]: the parent's constructor on [json.dumps(body)],
    with no [headers] argument. *)
Definition JSONResponse_init (body : value) (status_code : Z)
    : result HttpResponse :=
  text ← Json.dumps body;
  mret (HttpResponse_init text status_code None).

Record Connection : Type := {
  scope : Scope;
  receive : Event
}.

(** [Connection.send_response]: the two events it sends, in order.  The
    body is taken to be a [str] that [encode] accepts; held as UTF-8 text,
    it is its own encoding.  For a body that is no [str], or one with a
    lone surrogate, [encode] raises after the start event was sent: that
    case is not modelled, and the statements below that depend on it ask
    for [encodable] bodies. *)
Definition send_response (self : Connection) (response : HttpResponse)
    : list Message :=
  [ http_response_start (status_code response) (headers response);
    http_response_body (body response) false ].

(** *** Endpoints *)

(** A type callable, as the binder applies it. *)
Definition Annotation : Type := raw -> result value.

(** [inspect.Parameter], whose name is reserved in Rocq: its name, its
    annotation and its default ([None] stands for [Parameter.empty]). *)
Record Param : Type := {
  name : string;
  annotation : Annotation;
  default : option value
}.

(** A handler: the parameters of its signature in declaration order, which
    have distinct names, and its body as a function of the local
    variables the call binds. *)
Record Callable : Type := {
  parameters : list Param;
  code : gmap string value -> result HttpResponse
}.

(** The call of [func] with the keyword arguments [kwargs], for a
    signature of ordinary parameters (the kinds of [inspect.Parameter],
    such as the starred ones, are not modelled): a keyword that names no
    parameter and a parameter without default that gets no keyword are
    [TypeError]s; defaults fill the parameters left out. *)
Definition call (func : Callable) (kwargs : gmap string value)
    : result HttpResponse :=
  if bool_decide (dom kwargs ⊆ list_to_set (name <$> parameters func)) then
    locals ←
      foldl (fun (acc : result (gmap string value)) (p : Param) =>
               locals ← acc;
               match kwargs !! name p, default p with
               | Some v, _ => mret (<[name p := v]> locals)
               | None, Some d => mret (<[name p := d]> locals)
               | None, None => raise TypeError
               end)
            (mret ∅) (parameters func);
    code func locals
  else raise TypeError.

Record Endpoint : Type := {
  path : string;
  method : string;
  func : Callable;
  path_args : list (string * Annotation);
  query_args : list Param
}.

Record Registerer : Type := {
  _endpoints : list Endpoint
}.

(** [Registerer.__init__] *)
Definition Registerer_init : Registerer := {| _endpoints := [] |}.

(** [Registerer.add_endpoint], returning the registerer with the endpoint
    appended.  [path.split("/")[1]] raises [IndexError] when the template
    has no slash. *)
Definition add_endpoint (self : Registerer) (path method : string)
    (func : Callable) : result Registerer :=
  let args := Re.findall_placeholders path in
  let signature := parameters func in
  let '(path_args, query_args) :=
    foldl (fun '(path_args, query_args) (arg : Param) =>
             if bool_decide (name arg ∈ args)
             then ((path_args ++ [arg])%list, query_args)
             else (path_args, (query_args ++ [arg])%list))
          (([], []) : list Param * list Param) signature in
  key ← match PyStr.split "/" path !! 1%nat with
        | Some key => mret key
        | None => raise IndexError
        end;
  let ep :=
    {| path := key;
       method := method;
       func := func;
       path_args := foldl (fun d (p : Param) => Dict.set d (name p) (annotation p))
                          [] path_args;
       query_args := query_args |} in
  mret {| _endpoints := (_endpoints self ++ [ep])%list |}.

(** [Registerer.register(path, method)(func)] *)
Definition register (self : Registerer) (path method : string)
    (func : Callable) : result Registerer :=
  add_endpoint self path method func.

(** [Registerer.endpoints] *)
Definition endpoints (self : Registerer) : list Endpoint := _endpoints self.

(** *** The application *)

Record MyApp : Type := {
  _registerer : Registerer;
  connection : option Connection
}.

(** [MyApp.__init__] *)
Definition MyApp_init (registerer : Registerer) : MyApp :=
  {| _registerer := registerer; connection := None |}.

(** [k.decode()]: strict UTF-8, which refuses surrogates. *)
Definition bytes_decode (k : string) : result string :=
  match Utf8.decode k with
  | Some text =>
      if forallb (fun cp => negb (Json.is_high_surrogate cp || Json.is_low_surrogate cp)) text
      then mret k else raise UnicodeDecodeError
  | None => raise UnicodeDecodeError
  end.

(** [{k.decode(): v[0] for k, v in query_args.items()}] *)
Definition first_values (query_args : list (string * list string))
    : result (list (string * string)) :=
  foldl (fun (acc : result (list (string * string))) '((k, v) : string * list string) =>
           d ← acc;
           k' ← bytes_decode k;
           v0 ← match v with
                | v0 :: _ => mret v0
                | [] => raise IndexError
                end;
           mret (Dict.set d k' v0))
        (mret []) query_args.

(** Can [hash(x)] be computed?  A [Parameter] hashes the tuple of its
    name, kind, annotation and default; a default that is a list or a
    dictionary has no hash. *)
Definition Param_hashable (x : Param) : bool :=
  match default x with
  | Some (VList _) | Some (VDict _) => false
  | _ => true
  end.

(** [x == k] for a [Parameter] [x] and a [str] [k].  [Parameter.__eq__]
    answers [NotImplemented] for an operand that is not a [Parameter],
    [str.__eq__] does so for one that is not a [str], and the comparison
    falls back to identity: the two objects are never equal. *)
Definition Param_eq_str (x : Param) (k : string) : bool := false.

(** [x in func_args.keys()] for a [Parameter] [x]: the lookup hashes [x]
    and compares it with the keys, which are [str] objects. *)
Definition Param_in_keys (x : Param) (func_args : gmap string value)
    : result bool :=
  if Param_hashable x
  then mret (existsb (Param_eq_str x) (elements (dom func_args)))
  else raise TypeError.

(** The loop over [enumerate(path_args)], from index [i] on. *)
Fixpoint bind_path_args (endpoint : Endpoint) (i : nat)
    (path_args : list string) (func_args : gmap string value)
    : result (gmap string value) :=
  match path_args with
  | [] => mret func_args
  | arg :: rest =>
      arg_name ← match Dict.keys (MyAPI.path_args endpoint) !! i with
                 | Some arg_name => mret arg_name
                 | None => raise IndexError
                 end;
      type ← match Dict.get (MyAPI.path_args endpoint) arg_name with
             | Some type => mret type
             | None => raise KeyError
             end;
      v ← type (Str arg);
      bind_path_args endpoint (S i) rest (<[arg_name := v]> func_args)
  end.

(** The loop over [enumerate(query_args.items())], from index [i] on;
    [query_args] is the whole dictionary, [items] what is left of it. *)
Fixpoint bind_query_args (endpoint : Endpoint)
    (query_args : list (string * string)) (i : nat)
    (items : list (string * string)) (func_args : gmap string value)
    : result (gmap string value) :=
  match items with
  | [] => mret func_args
  | (name, value) :: rest =>
      func_args ←
        (if bool_decide (is_Some (Dict.get query_args name)) then
           p ← match MyAPI.query_args endpoint !! i with
               | Some p => mret p
               | None => raise IndexError
               end;
           v ← annotation p (Bytes value);
           mret (<[name := v]> func_args)
         else mret func_args);
      bind_query_args endpoint query_args (S i) rest func_args
  end.

(** [if data is not None: ...]: the declared query parameters that are
    not among the keys of [func_args] all receive [data]. *)
Definition bind_data (endpoint : Endpoint) (data : value)
    (func_args : gmap string value) : result (gmap string value) :=
  if is_None data then mret func_args
  else
    diff ← foldl (fun (acc : result (list Param)) (x : Param) =>
                    diff ← acc;
                    found ← Param_in_keys x func_args;
                    mret (if (found : bool) then diff else (diff ++ [x])%list))
                 (mret []) (MyAPI.query_args endpoint);
    mret (foldl (fun func_args (p : Param) => <[name p := data]> func_args)
                func_args diff).

(** The loop over the registered endpoints: the first one with the
    request's key and method is bound and returned. *)
Fixpoint match_endpoint (endpoints : list Endpoint) (ep_path : string)
    (path_args : list string) (query_args : list (string * string))
    (method : string) (data : value)
    : result (Endpoint * gmap string value) :=
  match endpoints with
  | [] => raise NotImplementedError
  | endpoint :: rest =>
      if String.eqb (path endpoint) ep_path
         && String.eqb (MyAPI.method endpoint) method
      then
        func_args ← bind_path_args endpoint 0 path_args ∅;
        func_args ← bind_query_args endpoint query_args 0 query_args func_args;
        func_args ← bind_data endpoint data func_args;
        mret (endpoint, func_args)
      else match_endpoint rest ep_path path_args query_args method data
  end.

(** The first five lines of [find_endpoint]: the route key, the path
    segments after it and the query dictionary of a request. *)
Definition parse_request (path : string) (query_string : string)
    : result (string * list string * list (string * string)) :=
  url_path ← Urllib.urlsplit_path path;
  let urlst := filter (fun x : string => x ≠ EmptyString) (PyStr.split "/" url_path) in
  let ep_path := match urlst with
                 | x :: _ => x
                 | [] => EmptyString
                 end in
  let path_args := match urlst with
                   | _ :: rest => rest
                   | [] => []
                   end in
  let query_args := Urllib.parse_qs query_string in
  query_args ← first_values query_args;
  mret (ep_path, path_args, query_args).

(** [MyApp.find_endpoint] *)
Definition find_endpoint (self : MyApp) (path : string)
    (query_string : string) (method : string) (data : value)
    : result (Endpoint * gmap string value) :=
  '(ep_path, path_args, query_args) ← parse_request path query_string;
  match_endpoint (endpoints (_registerer self)) ep_path path_args query_args
    method data.

(** What a request leaves behind: the events sent, in order, and the
    exception that leaves the handler, if any. *)
Record Outcome : Type := {
  sent : list Message;
  raised : option exn
}.

(** [body.get("body", b"[]")] and the first [try]: a [JSONDecodeError]
    gives [None], any other exception propagates. *)
Definition decode_body (body : Event) : result value :=
  let text := match event_body body with
              | Some b => b
              | None => "[]"
              end in
  try_except (Json.loads text) [JSONDecodeError] (fun _ => mret VNone).

(** [MyApp._handle_http] *)
Definition _handle_http (self : MyApp) : Outcome :=
  match connection self with
  | None => {| sent := []; raised := Some AttributeError |}
  | Some conn =>
      let body := receive conn in
      match decode_body body with
      | inl e => {| sent := []; raised := Some e |}
      | inr data =>
          let attempt :=
            '(endpoint, func_args) ←
               find_endpoint self (scope_path (scope conn))
                 (scope_query_string (scope conn))
                 (scope_method (scope conn)) data;
            call (func endpoint) func_args in
          match attempt with
          | inr answer => {| sent := send_response conn answer; raised := None |}
          | inl e =>
              if caught_by [ValueError; TypeError; JSONDecodeError] e then
                {| sent := send_response conn (HttpResponse_init EmptyString 422 None);
                   raised := None |}
              else if caught_by [NotImplementedError] e then
                {| sent := send_response conn (HttpResponse_init EmptyString 404 None);
                   raised := None |}
              else {| sent := []; raised := Some e |}
          end
      end
  end.

(** [MyApp.__call__]: the ASGI callable. *)
Definition _handle (self : MyApp) (scope : Scope) (receive : Event) : Outcome :=
  if String.eqb (scope_type scope) "http" then
    _handle_http {| _registerer := _registerer self;
                    connection := Some {| scope := scope; receive := receive |} |}
  else {| sent := []; raised := Some NotImplementedError |}.

End MyAPI.

(** ** [main.py] *)

Module Main.
Import PyStr Builtins MyAPI.

(** [{"result": str(result)}] as a [JSONResponse] *)
Definition result_response (text : string) : result HttpResponse :=
  JSONResponse_init (VDict [("result", VStr text)]) 200.

(** The body of [factorial]. *)
Definition factorial (n : value) : result HttpResponse :=
  negative ← lt_zero n;
  if (negative : bool) then mret (HttpResponse_init EmptyString 400 None)
  else
    n ← index n;
    let result := foldl (fun x y => x * y) 1 (range 1 (n + 1)) in
    result_response (of_Z result).

(** The body of [fibonacci]. *)
Definition fibonacci (n : value) : result HttpResponse :=
  negative ← lt_zero n;
  if (negative : bool) then mret (HttpResponse_init EmptyString 400 None)
  else
    n ← index n;
    let '(a, b) := foldl (fun '(a, b) _ => (b, a + b)) (1, 1) (range 0 (n - 1)) in
    result_response (of_Z a).

(** A handler with one parameter, as a [Callable]. *)
Definition handler (param : string) (type : Annotation)
    (body : value -> result HttpResponse) : Callable :=
  {| parameters := [ {| name := param; annotation := type; default := None |} ];
     code := fun locals =>
               match locals !! param with
               | Some v => body v
               | None => raise TypeError
               end |}.

(** The registerer a failed registration would leave: the module would not
    load.  None of the registrations below fails. *)
Definition loaded (registrations : result Registerer) : Registerer :=
  match registrations with
  | inr r => r
  | inl _ => Registerer_init
  end.

(** The first two decorated definitions. *)
Definition integer_registrations : result Registerer :=
  r ← register Registerer_init "/factorial/" "GET" (handler "n" int factorial);
  register r "/fibonacci/{n}" "GET" (handler "n" int fibonacci).

(** The application with [factorial] and [fibonacci] only, as it is before
    [mean] is registered. *)
Definition integer_app : MyApp := MyApp_init (loaded integer_registrations).

Section Mean.

(** [str(sum(array) / len(array))] for a non-empty [array], or the
    exception the sum or the division raises.  The quotient is a float:
    its value and its text are left to this parameter. *)
Variable str_of_mean : value -> result string.

(** The body of [mean]. *)
Definition mean (array : value) : result HttpResponse :=
  n ← len array;
  if (n : Z) =? 0 then mret (HttpResponse_init EmptyString 400 None)
  else
    text ← str_of_mean array;
    result_response text.

(** The three decorated definitions, in the order of the module. *)
Definition registrations : result Registerer :=
  r ← integer_registrations;
  register r "/mean/" "GET" (handler "array" list_ mean).

Definition regesterer : Registerer := loaded registrations.

Definition app : MyApp := MyApp_init regesterer.

End Mean.

End Main.


(** * Properties *)

Import PyStr Builtins MyAPI Main.

(** ** Vocabulary *)

(** A request with the given method, path and query string. *)
Definition request (method path query_string : string) : Scope :=
  {| scope_type := "http";
     scope_path := path;
     scope_query_string := query_string;
     scope_method := method |}.

(** The outcome of a request that is answered with [response]. *)
Definition respond (response : HttpResponse) : Outcome :=
  {| sent := [ http_response_start (status_code response) (headers response);
               http_response_body (body response) false ];
     raised := None |}.

(** The outcome of a request on which [e] leaves the dispatcher. *)
Definition propagate (e : exn) : Outcome :=
  {| sent := []; raised := Some e |}.

(** The response without body that the dispatcher builds for a status. *)
Definition status_response (status : Z) : HttpResponse :=
  HttpResponse_init EmptyString status None.

(** The text of a JSON object with the single member [result], a string. *)
Definition result_text (digits : string) : string :=
  String "{" (String Json.quote ("result" ++ String Json.quote (": "
    ++ String Json.quote (digits ++ String Json.quote "}")))).

(** The first registered endpoint with the given key and method. *)
Definition first_match (endpoints : list Endpoint) (key method : string)
    : option Endpoint :=
  List.find (fun ep => String.eqb (path ep) key && String.eqb (MyAPI.method ep) method)
    endpoints.

(** The type that the binder applies to the path segment of index [i]:
    the one stored under the [i]-th key of [path_args]. *)
Definition path_type (endpoint : Endpoint) (i : nat) : option Annotation :=
  match Dict.keys (path_args endpoint) !! i with
  | Some arg_name => Dict.get (path_args endpoint) arg_name
  | None => None
  end.

(** The type that the binder applies to the query entry of index [i]: the
    annotation of the [i]-th declared query parameter. *)
Definition query_type (endpoint : Endpoint) (i : nat) : option Annotation :=
  annotation <$> query_args endpoint !! i.

(** The endpoints that the registrations of [main.py] build. *)
Definition factorial_endpoint : Endpoint :=
  {| path := "factorial";
     method := "GET";
     func := handler "n" int factorial;
     path_args := [];
     query_args := [ {| name := "n"; annotation := int; default := None |} ] |}.

Definition fibonacci_endpoint : Endpoint :=
  {| path := "fibonacci";
     method := "GET";
     func := handler "n" int fibonacci;
     path_args := [("n", int)];
     query_args := [] |}.

Definition mean_endpoint (str_of_mean : value -> result string) : Endpoint :=
  {| path := "mean";
     method := "GET";
     func := handler "array" list_ (mean str_of_mean);
     path_args := [];
     query_args := [ {| name := "array"; annotation := list_; default := None |} ] |}.

(** A handler with two parameters, [a: int] and [b: list], which answers
    with an empty response: an endpoint to bind against. *)
Definition pair_handler : Callable :=
  {| parameters := [ {| name := "a"; annotation := int; default := None |};
                     {| name := "b"; annotation := list_; default := None |} ];
     code := fun _ => mret (status_response 200) |}.

Definition pair_app : MyApp :=
  MyApp_init (loaded (register Registerer_init "/pair/" "GET" pair_handler)).

(** The guard [if name in query_args] holds for every one of [items]. *)
Definition guarded (query_args items : list (string * string)) : Prop :=
  forall name value, (name, value) ∈ items -> is_Some (Dict.get query_args name).

(** The first non-empty segment of a template, in the words of the
    specification. *)
Definition first_nonempty_segment (template : string) : option string :=
  head (filter (fun x : string => x ≠ EmptyString) (split "/" template)).

(** The key of the endpoint registered last. *)
Definition last_key (r : Registerer) : option string :=
  path <$> last (endpoints r).

(** JSON white space, as a byte: space, tab, line feed, carriage
    return. *)
Definition is_json_space (c : ascii) : bool := Json.is_ws (PyStr.code c).

(** A [str] that [str.encode] accepts: no lone surrogate in it. *)
Definition encodable (text : string) : bool :=
  match bytes_decode text with
  | inr _ => true
  | inl _ => false
  end.

(** The characters of a plain path: letters, digits, the slash, the
    hyphen, the dot and the underscore. *)
Definition plain (c : ascii) : bool :=
  is_alpha c || is_digit c
  || ((PyStr.code c =? 47) || (PyStr.code c =? 45) || (PyStr.code c =? 46)
      || (PyStr.code c =? 95))%N.

(** A plain path: plain characters only, one slash at the start and no
    second slash right after it. *)
Definition plain_path (p : string) : bool :=
  PyStr.forallb plain p
  && match p with
     | String a rest =>
         Ascii.eqb a "/" && negb (Urllib.head_is (Ascii.eqb "/") rest)
     | EmptyString => false
     end.

(** The Fibonacci numbers 0, 1, 1, 2, 3, 5, 8, 13, ... *)
Fixpoint fib (n : nat) : Z :=
  match n with
  | O => 0
  | S m => match m with
           | O => 1
           | S k => fib m + fib k
           end
  end.

(** The number of decimal digits of an integer, its sign left out.  [str]
    and [int] refuse to convert more than [Json.max_str_digits] digits. *)
Definition digit_count (z : Z) : nat := String.length (of_Z (Z.abs z)).

(** ** The error monad *)

Lemma bind_inr {A B} (m : result A) (k : A -> result B) (a : A) :
  m = inr a -> (m ≫= k) = k a.
Proof. intros ->. reflexivity. Qed.

Lemma bind_inl {A B} (m : result A) (k : A -> result B) (e : exn) :
  m = inl e -> (m ≫= k) = inl e.
Proof. intros ->. reflexivity. Qed.

Lemma bind_inr_inv {A B} (m : result A) (k : A -> result B) (b : B) :
  (m ≫= k) = inr b -> exists a, m = inr a /\ k a = inr b.
Proof. destruct m as [e|a]; [discriminate | eauto]. Qed.

(** ** The registry of [main.py] *)

Lemma integer_registrations_endpoints :
  integer_registrations
  = inr {| _endpoints := [factorial_endpoint; fibonacci_endpoint] |}.
Proof. reflexivity. Qed.

Lemma registrations_endpoints (str_of_mean : value -> result string) :
  registrations str_of_mean
  = inr {| _endpoints := [factorial_endpoint; fibonacci_endpoint;
                           mean_endpoint str_of_mean] |}.
Proof. reflexivity. Qed.

(** ** Responses *)

(** C9.  An [HttpResponse] built with an empty collection of headers gets
    the default header list: the constructor tests whether [headers] is
    true, and an empty collection is as false as [None]. *)
Theorem empty_headers_are_replaced (body : string) (status_code : Z) :
  headers (HttpResponse_init body status_code (Some []))
  = [("content-type", "text/plain")]
  /\ headers (HttpResponse_init body status_code (Some []))
     = headers (HttpResponse_init body status_code None).
Proof. split; reflexivity. Qed.

(** C8.  A [JSONResponse] has no way to receive headers: whenever one is
    constructed, that is whenever [json.dumps] returns a text for the
    value, its headers are the default list, so the content type is
    [text/plain] although the body is the JSON text of the value.  The
    dictionaries that [main.py] passes, a string under the key [result],
    always have a JSON text, so these responses are always constructed. *)
Theorem JSONResponse_keeps_text_plain (v : value) (status : Z) :
  (forall r, JSONResponse_init v status = inr r ->
     headers r = [("content-type", "text/plain")]
     /\ status_code r = status
     /\ Json.dumps v = inr (body r))
  /\ (forall text, exists r,
        JSONResponse_init (VDict [("result", VStr text)]) status = inr r
        /\ headers r = [("content-type", "text/plain")]).
Proof.
  unfold JSONResponse_init. split.
  - intros r H. apply bind_inr_inv in H as (text & Ht & Hr).
    injection Hr as Hr. subst r. rewrite Ht. auto.
  - intros text. eexists. split; reflexivity.
Qed.

Lemma JSONResponse_keeps_text_plain_witness :
  exists r, JSONResponse_init (VDict [("result", VStr "13")]) 200 = inr r
            /\ headers r = [("content-type", "text/plain")]
            /\ body r = result_text "13".
Proof.
  destruct (JSONResponse_keeps_text_plain (VDict [("result", VStr "13")]) 200)
    as [Hall Hex].
  destruct (Hex "13") as (r & Hr & _). exists r. split; [exact Hr|].
  destruct (Hall r Hr) as (Hh & _ & Hb). split; [exact Hh|].
  assert (E : Json.dumps (VDict [("result", VStr "13")]) = inr (result_text "13"))
    by (vm_compute; reflexivity).
  rewrite E in Hb. injection Hb as Hb. symmetry. exact Hb.
Defined.

(** ** Decoding the body *)

Lemma json_space_char (c : ascii) :
  is_json_space c = true ->
  c = chr 32 \/ c = chr 9 \/ c = chr 10 \/ c = chr 13.
Proof.
  intros H.
  destruct c as [[] [] [] [] [] [] [] []]; vm_compute in H; try discriminate H;
    first [ left; reflexivity | right; left; reflexivity
          | right; right; left; reflexivity | right; right; right; reflexivity ].
Qed.

Lemma starts_with_head (x : N) (codes : list N) (c : ascii) (r : string) :
  x <> PyStr.code c -> Json.starts_with (x :: codes) (String c r) = false.
Proof.
  intros H. unfold Json.starts_with. apply bool_decide_eq_false.
  simpl. intros E. injection E as E _. congruence.
Qed.

Lemma spaces_detect_encoding (b : string) :
  PyStr.forallb is_json_space b = true -> Json.detect_encoding b = Json.UTF8.
Proof.
  intros H. destruct b as [|c0 [|c1 r]]; [reflexivity| |].
  - simpl in H. apply andb_true_iff in H as [H0 _].
    destruct (json_space_char c0 H0) as [->|[->|[->| ->]]]; reflexivity.
  - simpl in H. apply andb_true_iff in H as [H0 H].
    apply andb_true_iff in H as [H1 _].
    destruct (json_space_char c0 H0) as [->|[->|[->| ->]]];
      destruct (json_space_char c1 H1) as [->|[->|[->| ->]]];
      unfold Json.detect_encoding;
      rewrite !starts_with_head by (vm_compute; discriminate);
      cbn [orb];
      (destruct (4 <=? _)%nat; [reflexivity|]; destruct (_ =? 2)%nat; reflexivity).
Qed.

Lemma spaces_decode (b : string) :
  PyStr.forallb is_json_space b = true ->
  Utf8.decode b = Some (PyStr.code <$> list_ascii_of_string b).
Proof.
  induction b as [|c r IH]; [reflexivity|]. intros H.
  simpl in H. apply andb_true_iff in H as [Hc Hr].
  cbn [Utf8.decode list_ascii_of_string fmap list_fmap]. rewrite (IH Hr).
  destruct (json_space_char c Hc) as [->|[->|[->| ->]]]; reflexivity.
Qed.

Lemma spaces_skip_ws (b : string) :
  PyStr.forallb is_json_space b = true ->
  Json.skip_ws (PyStr.code <$> list_ascii_of_string b) = [].
Proof.
  induction b as [|c r IH]; [reflexivity|]. intros H.
  simpl in H. apply andb_true_iff in H as [Hc Hr].
  cbn [Json.skip_ws list_ascii_of_string fmap list_fmap].
  unfold is_json_space in Hc. rewrite Hc. exact (IH Hr).
Qed.

(** [json.loads] finds no value in a text of white space only. *)
Lemma loads_spaces (b : string) :
  PyStr.forallb is_json_space b = true -> Json.loads b = inl JSONDecodeError.
Proof.
  intros H. unfold Json.loads, Json.decode_bytes.
  rewrite (spaces_detect_encoding b H), (spaces_decode b H).
  unfold Json.decode. cbn [mbind result_bind mret result_ret].
  rewrite (spaces_skip_ws b H). reflexivity.
Qed.

(** C2, as the code has it.  An event without a [body] entry is decoded
    from the default text, two square brackets, and gives the empty list.
    For a body that is present the outcome follows [json.loads]: its value
    when it returns one, [None] when it raises a JSON decode error, and
    any other exception unchanged, so that no JSON decode error ever
    leaves the decoding step.  A body of JSON white space only, the empty
    body among them, is such a decode error and gives [None]; the single
    byte 255 is not UTF-8 text, and its [UnicodeDecodeError] leaves the
    step. *)
Theorem decode_body_lenient (event : Event) :
  (forall e, decode_body event = inl e -> isinstance e JSONDecodeError = false)
  /\ (event_body event = None -> decode_body event = inr (VList []))
  /\ (forall b, event_body event = Some b ->
        (forall v, Json.loads b = inr v -> decode_body event = inr v)
        /\ (forall e, Json.loads b = inl e ->
              decode_body event
              = if isinstance e JSONDecodeError then inr VNone else inl e)
        /\ (PyStr.forallb is_json_space b = true -> decode_body event = inr VNone))
  /\ decode_body {| event_body := Some (String (chr 255) EmptyString) |}
     = inl UnicodeDecodeError.
Proof.
  unfold decode_body, try_except. split; [|split; [|split]].
  - intros e. destruct (Json.loads _) as [e'|v]; [|discriminate].
    destruct e'; simpl; intros He; try discriminate He;
      injection He as <-; reflexivity.
  - intros ->. reflexivity.
  - intros b ->. split; [|split].
    + intros v ->. reflexivity.
    + intros e ->. destruct e; reflexivity.
    + intros H. rewrite (loads_spaces b H). reflexivity.
  - reflexivity.
Qed.

Lemma decode_body_lenient_witness :
  decode_body {| event_body := Some EmptyString |} = inr VNone
  /\ decode_body {| event_body := Some "{" |} = inr VNone
  /\ decode_body {| event_body := Some "[1]" |} = inr (VList [VInt 1])
  /\ decode_body {| event_body := None |} = inr (VList []).
Proof.
  split; [|split; [|split]].
  - apply (proj2 (proj2 (proj1 (proj2 (proj2
             (decode_body_lenient {| event_body := Some EmptyString |})))
             EmptyString eq_refl))).
    reflexivity.
  - apply (proj1 (proj2 (proj1 (proj2 (proj2
             (decode_body_lenient {| event_body := Some "{" |})))
             "{" eq_refl)) JSONDecodeError).
    reflexivity.
  - apply (proj1 (proj1 (proj2 (proj2
             (decode_body_lenient {| event_body := Some "[1]" |})))
             "[1]" eq_refl)).
    reflexivity.
  - apply (proj1 (proj2 (decode_body_lenient {| event_body := None |}))).
    reflexivity.
Defined.

(** C2 as stated fails: for an event without a body entry the binder does
    not see [None] but the empty list. *)
Lemma absent_body_is_not_null :
  decode_body {| event_body := None |} = inr (VList [])
  /\ is_None (VList []) = false.
Proof. split; reflexivity. Qed.

(** A body that is not UTF-8 text is not covered by the leniency: the
    error of the byte decoder is not a [JSONDecodeError] and leaves
    [decode_body]. *)
Example undecodable_bytes_raise :
  decode_body {| event_body := Some (String (chr 255) EmptyString) |}
  = inl UnicodeDecodeError.
Proof. reflexivity. Qed.

(** ** The handlers of [main.py] *)

(** [fibonacci] runs through 1, 1, 2, 3, 5, 8, 13. *)
Example fibonacci_sequence :
  (fun n => fibonacci (VInt n)) <$> [1; 2; 3; 4; 5; 6; 7]
  = (fun digits => inr {| body := result_text digits;
                          status_code := 200;
                          headers := default_headers |})
      <$> ["1"; "1"; "2"; "3"; "5"; "8"; "13"].
Proof. vm_compute. reflexivity. Qed.

(** C7.  [GET /fibonacci/7] is answered with status 200 and the JSON
    object whose [result] is the string 13, whatever the body of the
    request decodes to. *)
Theorem fibonacci_7 (str_of_mean : value -> result string)
    (event : Event) (data : value) :
  decode_body event = inr data ->
  _handle (app str_of_mean) (request "GET" "/fibonacci/7" EmptyString) event
  = respond {| body := result_text "13";
               status_code := 200;
               headers := [("content-type", "text/plain")] |}.
Proof.
  intros H. unfold _handle, _handle_http. simpl String.eqb. cbv iota.
  cbn [connection receive]. rewrite H.
  destruct data; vm_compute; reflexivity.
Qed.

Lemma fibonacci_7_witness :
  _handle (app (fun _ => raise TypeError))
    (request "GET" "/fibonacci/7" EmptyString) {| event_body := Some EmptyString |}
  = respond {| body := result_text "13";
               status_code := 200;
               headers := [("content-type", "text/plain")] |}.
Proof.
  apply (fibonacci_7 _ {| event_body := Some EmptyString |} VNone).
  reflexivity.
Defined.

(** ** Matching *)

Lemma match_endpoint_first_match (endpoints : list Endpoint)
    (key : string) (segments : list string)
    (query_args : list (string * string)) (method : string) (data : value) :
  match_endpoint endpoints key segments query_args method data
  = match first_match endpoints key method with
    | Some endpoint =>
        func_args ← bind_path_args endpoint 0 segments ∅;
        func_args ← bind_query_args endpoint query_args 0 query_args func_args;
        func_args ← bind_data endpoint data func_args;
        mret (endpoint, func_args)
    | None => raise NotImplementedError
    end.
Proof.
  induction endpoints as [|ep eps IH]; [reflexivity|].
  simpl. destruct (String.eqb (path ep) key && String.eqb (MyAPI.method ep) method);
    [reflexivity | exact IH].
Qed.

(** ** The dispatcher *)

(** What [_handle_http] does with an exception raised by [find_endpoint]. *)
Lemma handle_find_endpoint_raises (self : MyApp) (scope : Scope)
    (event : Event) (data : value) (e : exn) :
  scope_type scope = "http" ->
  decode_body event = inr data ->
  find_endpoint self (scope_path scope) (scope_query_string scope)
    (scope_method scope) data = inl e ->
  _handle self scope event
  = if caught_by [ValueError; TypeError; JSONDecodeError] e
    then respond (status_response 422)
    else if caught_by [NotImplementedError] e
    then respond (status_response 404)
    else propagate e.
Proof.
  intros Ht Hd Hf. unfold _handle, _handle_http. rewrite Ht. simpl String.eqb.
  cbv iota. cbn [connection receive MyAPI.scope]. rewrite Hd.
  unfold find_endpoint in *. cbn [_registerer]. rewrite Hf. reflexivity.
Qed.

Lemma Dict_get_keys {A} (d : list (string * A)) (i : nat) (k : string) :
  Dict.keys d !! i = Some k -> is_Some (Dict.get d k).
Proof.
  revert i. induction d as [|[k' v] d IH]; intros i; [destruct i; discriminate|].
  simpl. destruct (String.eqb k' k) eqn:E; [eauto|].
  destruct i as [|i]; simpl.
  - intros [= ->]. rewrite String.eqb_refl in E. discriminate.
  - apply IH.
Qed.

Lemma Dict_get_elem {A} (d : list (string * A)) (k : string) (v : A) :
  (k, v) ∈ d -> is_Some (Dict.get d k).
Proof.
  intros H. apply list_elem_of_lookup in H as [i Hi].
  apply (Dict_get_keys d i). unfold Dict.keys. rewrite list_lookup_fmap, Hi.
  reflexivity.
Qed.

(** ** Binding the path segments *)

(** More segments than declared path parameters: once the declared ones are
    bound, the lookup of the next parameter name is out of range. *)
Lemma bind_path_args_overflow (endpoint : Endpoint) (segments : list string) :
  forall (i : nat) (func_args : gmap string value),
    (i <= length (path_args endpoint))%nat ->
    (length (path_args endpoint) < i + length segments)%nat ->
    (forall j seg, segments !! j = Some seg ->
       (i + j < length (path_args endpoint))%nat ->
       exists type v, path_type endpoint (i + j) = Some type /\ type (Str seg) = inr v) ->
    bind_path_args endpoint i segments func_args = inl IndexError.
Proof.
  induction segments as [|seg rest IH]; intros i func_args Hle Hlt Hok.
  - simpl in Hlt. lia.
  - simpl. destruct (decide (i < length (path_args endpoint))%nat) as [Hi|Hi].
    + destruct (Hok 0%nat seg eq_refl ltac:(lia)) as (type & v & Ht & Hv).
      unfold path_type in Ht. rewrite Nat.add_0_r in Ht.
      destruct (Dict.keys (path_args endpoint) !! i) as [arg_name|]; [|discriminate].
      simpl. rewrite Ht. simpl. rewrite Hv. simpl.
      apply IH; [lia | simpl in Hlt; lia |].
      intros j seg' Hj Hlt'. replace (S i + j)%nat with (i + S j)%nat by lia.
      apply Hok; [exact Hj | lia].
    + rewrite (lookup_ge_None_2 (Dict.keys (path_args endpoint)) i); [reflexivity|].
      unfold Dict.keys. rewrite length_fmap. lia.
Qed.

(** ** Binding the query entries *)

Section BindQuery.

Variable endpoint : Endpoint.
Variable query_args : list (string * string).

Lemma guarded_cons (item : string * string) (items : list (string * string)) :
  guarded query_args (item :: items) -> is_Some (Dict.get query_args (fst item)) /\ guarded query_args items.
Proof.
  intros H. split.
  - destruct item as [name value]. apply (H name value). left.
  - intros name value Hin. apply (H name value). right. exact Hin.
Qed.

Lemma guarded_all : guarded query_args query_args.
Proof. intros name value. apply Dict_get_elem. Qed.

(** More entries than declared query parameters. *)
Lemma bind_query_args_overflow (items : list (string * string)) :
  forall (i : nat) (func_args : gmap string value),
    guarded query_args items ->
    (i <= length (MyAPI.query_args endpoint))%nat ->
    (length (MyAPI.query_args endpoint) < i + length items)%nat ->
    (forall j name value, items !! j = Some (name, value) ->
       (i + j < length (MyAPI.query_args endpoint))%nat ->
       exists type v, query_type endpoint (i + j) = Some type
                      /\ type (Bytes value) = inr v) ->
    bind_query_args endpoint query_args i items func_args = inl IndexError.
Proof.
  induction items as [|[name value] rest IH]; intros i func_args Hg Hle Hlt Hok.
  - simpl in Hlt. lia.
  - apply guarded_cons in Hg as [Hname Hg]. simpl in Hname.
    simpl. rewrite (bool_decide_eq_true_2 _ Hname).
    destruct (decide (i < length (MyAPI.query_args endpoint))%nat) as [Hi|Hi].
    + destruct (Hok 0%nat name value eq_refl ltac:(lia)) as (type & v & Ht & Hv).
      unfold query_type in Ht. rewrite Nat.add_0_r in Ht.
      destruct (MyAPI.query_args endpoint !! i) as [p|]; [|discriminate].
      simpl in Ht. injection Ht as <-. simpl. rewrite Hv. simpl.
      apply IH; [exact Hg | lia | simpl in Hlt; lia |].
      intros j name' value' Hj Hlt'. replace (S i + j)%nat with (i + S j)%nat by lia.
      apply (Hok (S j) name' value'); [exact Hj | lia].
    + rewrite (lookup_ge_None_2 (MyAPI.query_args endpoint) i); [reflexivity | lia].
Qed.

(** What the loop leaves in [func_args] when it ends normally. *)
Lemma bind_query_args_spec (items : list (string * string)) :
  forall (i : nat) (func_args m : gmap string value),
    guarded query_args items ->
    NoDup (Dict.keys items) ->
    bind_query_args endpoint query_args i items func_args = inr m ->
    (forall j name value, items !! j = Some (name, value) ->
       exists type v, query_type endpoint (i + j) = Some type
                      /\ type (Bytes value) = inr v /\ m !! name = Some v)
    /\ (forall k, k ∉ Dict.keys items -> m !! k = func_args !! k).
Proof.
  induction items as [|[name value] rest IH]; intros i func_args m Hg Hnd Hb.
  - simpl in Hb. injection Hb as <-. split; [intros j ? ? Hj; destruct j; discriminate | auto].
  - apply guarded_cons in Hg as [Hname Hg]. simpl in Hname.
    simpl in Hnd. apply NoDup_cons in Hnd as [Hfresh Hnd].
    simpl in Hb. rewrite (bool_decide_eq_true_2 _ Hname) in Hb.
    destruct (MyAPI.query_args endpoint !! i) as [p|] eqn:Hp; [|discriminate].
    simpl in Hb. destruct (annotation p (Bytes value)) as [e|v] eqn:Hv; [discriminate|].
    simpl in Hb. destruct (IH _ _ _ Hg Hnd Hb) as [Hitems Hrest]. split.
    + intros [|j] name' value' Hj.
      * injection Hj as <- <-. exists (annotation p), v.
        unfold query_type. rewrite Nat.add_0_r, Hp. split; [reflexivity|].
        split; [exact Hv|]. rewrite (Hrest name Hfresh). apply lookup_insert_eq.
      * replace (i + S j)%nat with (S i + j)%nat by lia. apply (Hitems j). exact Hj.
    + intros k Hk. simpl in Hk. apply not_elem_of_cons in Hk as [Hne Hk].
      rewrite (Hrest k Hk). apply lookup_insert_ne. congruence.
Qed.

(** The loop ends normally when every entry has a declared query
    parameter at its index whose type accepts the value. *)
Lemma bind_query_args_total (items : list (string * string)) :
  forall (i : nat) (func_args : gmap string value),
    (forall j name value, items !! j = Some (name, value) ->
       exists type v, query_type endpoint (i + j) = Some type
                      /\ type (Bytes value) = inr v) ->
    exists m, bind_query_args endpoint query_args i items func_args = inr m.
Proof.
  induction items as [|[name value] rest IH]; intros i func_args Hok.
  - eexists. reflexivity.
  - simpl. destruct (Hok 0%nat name value eq_refl) as (type & v & Ht & Hv).
    unfold query_type in Ht. rewrite Nat.add_0_r in Ht.
    destruct (MyAPI.query_args endpoint !! i) as [p|]; [|discriminate].
    simpl in Ht. injection Ht as <-.
    assert (Hrec : forall fa, exists m,
              bind_query_args endpoint query_args (S i) rest fa = inr m).
    { intros fa. apply IH. intros j name' value' Hj.
      replace (S i + j)%nat with (i + S j)%nat by lia.
      apply (Hok (S j) name' value'). exact Hj. }
    case_bool_decide; simpl; [rewrite Hv; simpl|]; apply Hrec.
Qed.

End BindQuery.

(** C5.  The query entry of index [i] is converted by the type of the
    [i]-th declared query parameter, whatever the names of the two, and the
    result is stored under the entry's own key.  The loop ends normally
    exactly when every entry finds a parameter at its index whose type
    accepts the value. *)
Theorem query_binding_is_positional (endpoint : Endpoint)
    (query_args : list (string * string)) (func_args : gmap string value) :
  NoDup (Dict.keys query_args) ->
  ((exists m, bind_query_args endpoint query_args 0 query_args func_args = inr m)
   <-> (forall i name value, query_args !! i = Some (name, value) ->
          exists type v, query_type endpoint i = Some type
                         /\ type (Bytes value) = inr v))
  /\ (forall m, bind_query_args endpoint query_args 0 query_args func_args = inr m ->
        forall i name value, query_args !! i = Some (name, value) ->
          exists type v, query_type endpoint i = Some type
                         /\ type (Bytes value) = inr v
                         /\ m !! name = Some v).
Proof.
  intros Hnd.
  assert (Hspec : forall m,
            bind_query_args endpoint query_args 0 query_args func_args = inr m ->
            forall i name value, query_args !! i = Some (name, value) ->
              exists type v, query_type endpoint i = Some type
                             /\ type (Bytes value) = inr v
                             /\ m !! name = Some v).
  { intros m Hm.
    apply (bind_query_args_spec endpoint query_args query_args 0 func_args m
             (guarded_all query_args) Hnd Hm). }
  split; [split|exact Hspec].
  - intros [m Hm] i name value Hi.
    destruct (Hspec m Hm i name value Hi) as (type & v & Ht & Hv & _). eauto.
  - intros Hok. apply bind_query_args_total. exact Hok.
Qed.

Lemma query_binding_is_positional_witness :
  exists m,
    bind_query_args
      {| path := "pair"; method := "GET"; func := pair_handler;
         path_args := []; query_args := parameters pair_handler |}
      [("b", "12"); ("a", "34")] 0 [("b", "12"); ("a", "34")] ∅ = inr m
    /\ (exists v, list_ (Bytes "34") = inr v /\ m !! "a" = Some v)
    /\ (exists v, int (Bytes "12") = inr v /\ m !! "b" = Some v).
Proof.
  pose (endpoint := {| path := "pair"; method := "GET"; func := pair_handler;
                       path_args := []; query_args := parameters pair_handler |}).
  pose (query_args := [("b", "12"); ("a", "34")]).
  assert (Hnd : NoDup (Dict.keys query_args)).
  { unfold query_args, Dict.keys. simpl. apply NoDup_cons. split.
    - apply not_elem_of_cons. split; [discriminate | apply not_elem_of_nil].
    - apply NoDup_singleton. }
  destruct (query_binding_is_positional endpoint query_args ∅ Hnd) as [Hiff Hall].
  destruct (proj2 Hiff) as [m Hm].
  { intros [|[|i]] name value Hi; try discriminate Hi; injection Hi as <- <-.
    - exists int, (VInt 12). split; [reflexivity | vm_compute; reflexivity].
    - exists list_, (VList [VInt 51; VInt 52]).
      split; [reflexivity | vm_compute; reflexivity]. }
  exists m. split; [exact Hm|]. split.
  - destruct (Hall m Hm 1%nat "a" "34" eq_refl) as (type & v & Ht & Hv & Hl).
    injection Ht as <-. exists v. split; [exact Hv | exact Hl].
  - destruct (Hall m Hm 0%nat "b" "12" eq_refl) as (type & v & Ht & Hv & Hl).
    injection Ht as <-. exists v. split; [exact Hv | exact Hl].
Defined.

(** The types follow the positions, not the names: with [a: int] declared
    before [b: list], the query string [b=12&a=34] binds [b] through [int]
    and [a] through [list]. *)
Example binding_follows_positions :
  match find_endpoint pair_app "/pair/" "b=12&a=34" "GET" VNone with
  | inr (_, m) => m !! "b" = Some (VInt 12)
                  /\ m !! "a" = Some (VList [VInt 51; VInt 52])
  | inl _ => False
  end.
Proof. vm_compute. split; reflexivity. Qed.

(** A dictionary built by assignments has distinct keys. *)
Lemma Dict_set_keys {A} (d : list (string * A)) (k : string) (v : A) :
  Dict.keys (Dict.set d k v)
  = if bool_decide (k ∈ Dict.keys d) then Dict.keys d else (Dict.keys d ++ [k])%list.
Proof.
  induction d as [|[k' v'] d IH]; [reflexivity|].
  simpl. destruct (String.eqb k' k) eqn:E.
  - apply String.eqb_eq in E as ->. simpl.
    rewrite bool_decide_eq_true_2; [reflexivity | left].
  - apply String.eqb_neq in E. simpl. rewrite IH.
    destruct (bool_decide (k ∈ Dict.keys d)) eqn:Hk.
    + apply bool_decide_eq_true_1 in Hk.
      rewrite bool_decide_eq_true_2; [reflexivity | right; exact Hk].
    + apply bool_decide_eq_false_1 in Hk.
      rewrite bool_decide_eq_false_2; [reflexivity|].
      intros Hin. apply elem_of_cons in Hin as [->|Hin]; [congruence | auto].
Qed.

Lemma Dict_set_NoDup {A} (d : list (string * A)) (k : string) (v : A) :
  NoDup (Dict.keys d) -> NoDup (Dict.keys (Dict.set d k v)).
Proof.
  intros H. rewrite Dict_set_keys. case_bool_decide as Hk; [exact H|].
  apply NoDup_app. split; [exact H|]. split; [|apply NoDup_singleton].
  intros x Hx Hx'. apply list_elem_of_singleton in Hx' as ->. auto.
Qed.

Lemma first_values_NoDup (parsed : list (string * list string)) :
  forall query_args, first_values parsed = inr query_args ->
    NoDup (Dict.keys query_args).
Proof.
  unfold first_values.
  assert (H : forall (acc : result (list (string * string))) query_args,
            (forall d, acc = inr d -> NoDup (Dict.keys d)) ->
            foldl (fun (acc : result (list (string * string)))
                       '((k, v) : string * list string) =>
                     d ← acc;
                     k' ← bytes_decode k;
                     v0 ← match v with
                          | v0 :: _ => mret v0
                          | [] => raise IndexError
                          end;
                     mret (Dict.set d k' v0)) acc parsed = inr query_args ->
            NoDup (Dict.keys query_args)).
  { induction parsed as [|[k v] parsed IH]; intros acc query_args Hacc.
    - simpl. intros ->. apply Hacc. reflexivity.
    - simpl. apply IH. intros d Hd.
      destruct acc as [e|d0]; [discriminate|]. simpl in Hd.
      destruct (bytes_decode k) as [e|k']; [discriminate|]. simpl in Hd.
      destruct v as [|v0 v]; [discriminate|]. simpl in Hd.
      injection Hd as <-. apply Dict_set_NoDup. apply Hacc. reflexivity. }
  intros query_args. apply H. intros d [= <-]. apply NoDup_nil_2.
Qed.

(** The query dictionary of a parsed request has distinct keys. *)
Lemma parse_request_NoDup (path query_string key : string)
    (segments : list string) (query_args : list (string * string)) :
  parse_request path query_string = inr (key, segments, query_args) ->
  NoDup (Dict.keys query_args).
Proof.
  unfold parse_request. intros H.
  apply bind_inr_inv in H as (url_path & _ & H).
  apply bind_inr_inv in H as (qa & Hqa & H).
  injection H as _ _ <-. apply (first_values_NoDup _ _ Hqa).
Qed.

(** ** Requests that overrun the declaration *)

Lemma find_endpoint_unfold (self : MyApp) (path query_string method : string)
    (data : value) (key : string) (segments : list string)
    (query_args : list (string * string)) :
  parse_request path query_string = inr (key, segments, query_args) ->
  find_endpoint self path query_string method data
  = match first_match (endpoints (_registerer self)) key method with
    | Some endpoint =>
        func_args ← bind_path_args endpoint 0 segments ∅;
        func_args ← bind_query_args endpoint query_args 0 query_args func_args;
        func_args ← bind_data endpoint data func_args;
        mret (endpoint, func_args)
    | None => raise NotImplementedError
    end.
Proof.
  intros H. unfold find_endpoint. rewrite H. simpl.
  apply match_endpoint_first_match.
Qed.

(** C3, as the code has it.  When the path has more segments after the
    route key than the matched endpoint declares path parameters, and the
    declared parameters accept the segments that fall to them, binding
    fails with an index out of range.  The dispatcher has no clause for
    it: nothing is sent and the error leaves the handler. *)
Theorem extra_segments_propagate (self : MyApp) (scope : Scope)
    (event : Event) (data : value) (key : string) (segments : list string)
    (query_args : list (string * string)) (endpoint : Endpoint) :
  scope_type scope = "http" ->
  decode_body event = inr data ->
  parse_request (scope_path scope) (scope_query_string scope)
    = inr (key, segments, query_args) ->
  first_match (endpoints (_registerer self)) key (scope_method scope)
    = Some endpoint ->
  (length (path_args endpoint) < length segments)%nat ->
  (forall i seg, segments !! i = Some seg ->
     (i < length (path_args endpoint))%nat ->
     exists type v, path_type endpoint i = Some type /\ type (Str seg) = inr v) ->
  _handle self scope event = propagate IndexError.
Proof.
  intros Ht Hd Hp Hm Hlen Hok.
  rewrite (handle_find_endpoint_raises self scope event data IndexError Ht Hd);
    [reflexivity|].
  rewrite (find_endpoint_unfold _ _ _ _ _ _ _ _ Hp), Hm.
  rewrite bind_path_args_overflow; [reflexivity | lia | simpl; lia | exact Hok].
Qed.

Lemma extra_segments_propagate_witness :
  _handle integer_app (request "GET" "/fibonacci/3/4/5" EmptyString)
    {| event_body := Some EmptyString |}
  = propagate IndexError.
Proof.
  apply (extra_segments_propagate integer_app _ _ VNone "fibonacci"
           ["3"; "4"; "5"] [] fibonacci_endpoint);
    [reflexivity | vm_compute; reflexivity | vm_compute; reflexivity
    | reflexivity | simpl; lia |].
  intros i seg Hi Hlt. simpl in Hlt.
  destruct i as [|i]; [|lia]. injection Hi as <-.
  exists int, (VInt 3). split; [reflexivity | vm_compute; reflexivity].
Defined.

(** C3 as stated fails: [GET /fibonacci/7/8] has one segment too many and
    gets no response at all, so no status 422. *)
Lemma extra_segment_is_not_422 :
  _handle integer_app (request "GET" "/fibonacci/7/8" EmptyString)
    {| event_body := Some EmptyString |}
  = {| sent := []; raised := Some IndexError |}.
Proof. vm_compute. reflexivity. Qed.

(** C10, as the code has it.  When the query dictionary has more entries
    than the matched endpoint declares query parameters, the path segments
    are bound and the declared parameters accept the entries that fall to
    them, binding fails with an index out of range, for which the
    dispatcher has no clause: nothing is sent and the error leaves the
    handler. *)
Theorem extra_query_entries_propagate (self : MyApp) (scope : Scope)
    (event : Event) (data : value) (key : string) (segments : list string)
    (query_args : list (string * string)) (endpoint : Endpoint)
    (func_args : gmap string value) :
  scope_type scope = "http" ->
  decode_body event = inr data ->
  parse_request (scope_path scope) (scope_query_string scope)
    = inr (key, segments, query_args) ->
  first_match (endpoints (_registerer self)) key (scope_method scope)
    = Some endpoint ->
  bind_path_args endpoint 0 segments ∅ = inr func_args ->
  (length (MyAPI.query_args endpoint) < length query_args)%nat ->
  (forall i name value, query_args !! i = Some (name, value) ->
     (i < length (MyAPI.query_args endpoint))%nat ->
     exists type v, query_type endpoint i = Some type
                    /\ type (Bytes value) = inr v) ->
  _handle self scope event = propagate IndexError.
Proof.
  intros Ht Hd Hp Hm Hpath Hlen Hok.
  rewrite (handle_find_endpoint_raises self scope event data IndexError Ht Hd);
    [reflexivity|].
  rewrite (find_endpoint_unfold _ _ _ _ _ _ _ _ Hp), Hm, Hpath. simpl.
  rewrite bind_query_args_overflow;
    [reflexivity | apply guarded_all | lia | simpl; lia | exact Hok].
Qed.

Lemma extra_query_entries_propagate_witness :
  _handle integer_app (request "GET" "/factorial/" "n=5&m=1")
    {| event_body := Some EmptyString |}
  = propagate IndexError.
Proof.
  apply (extra_query_entries_propagate integer_app _ _ VNone "factorial"
           [] [("n", "5"); ("m", "1")] factorial_endpoint ∅);
    [reflexivity | vm_compute; reflexivity | vm_compute; reflexivity
    | reflexivity | reflexivity | simpl; lia |].
  intros i name value Hi Hlt. simpl in Hlt.
  destruct i as [|i]; [|lia]. injection Hi as <- <-.
  exists int, (VInt 5). split; [reflexivity | vm_compute; reflexivity].
Defined.

(** C10 as stated fails: [GET /factorial/?n=abc&m=1] has one query entry
    too many, yet the conversion of the first entry fails before the
    second is reached, and the request is answered with status 422. *)
Lemma extra_query_entry_answered_422 :
  _handle integer_app (request "GET" "/factorial/" "n=abc&m=1")
    {| event_body := Some EmptyString |}
  = {| sent := [ http_response_start 422 [("content-type", "text/plain")];
                 http_response_body EmptyString false ];
       raised := None |}.
Proof. vm_compute. reflexivity. Qed.

(** ** Errors and status codes *)

(** C4.  An exception raised while matching and binding, that is by
    [find_endpoint], is answered with 422 when it is a [ValueError] (a
    JSON decode error is one) or a [TypeError], with 404 when it is the
    [NotImplementedError] that reports that no endpoint matches, and is
    otherwise not converted: nothing is sent and it leaves the handler.
    When no registered endpoint has the key and the method of the
    request, the exception raised is that [NotImplementedError]. *)
Theorem binding_errors_to_status (self : MyApp) (scope : Scope)
    (event : Event) (data : value) (e : exn) :
  scope_type scope = "http" ->
  decode_body event = inr data ->
  find_endpoint self (scope_path scope) (scope_query_string scope)
    (scope_method scope) data = inl e ->
  (isinstance e ValueError || isinstance e TypeError
     || isinstance e JSONDecodeError = true ->
   _handle self scope event = respond (status_response 422))
  /\ (isinstance e NotImplementedError = true ->
      _handle self scope event = respond (status_response 404))
  /\ (isinstance e ValueError = false -> isinstance e TypeError = false ->
      isinstance e NotImplementedError = false ->
      _handle self scope event = propagate e)
  /\ (forall key segments query_args,
        parse_request (scope_path scope) (scope_query_string scope)
          = inr (key, segments, query_args) ->
        first_match (endpoints (_registerer self)) key (scope_method scope) = None ->
        e = NotImplementedError).
Proof.
  intros Ht Hd Hf.
  rewrite (handle_find_endpoint_raises self scope event data e Ht Hd Hf).
  repeat split.
  - destruct e; simpl; intros H; try discriminate H; reflexivity.
  - destruct e; simpl; intros H; try discriminate H; reflexivity.
  - destruct e; simpl; intros H1 H2 H3;
      try discriminate H1; try discriminate H2; try discriminate H3; reflexivity.
  - intros key segments query_args Hp Hm.
    rewrite (find_endpoint_unfold _ _ _ _ _ _ _ _ Hp), Hm in Hf.
    injection Hf as <-. reflexivity.
Qed.

Lemma binding_errors_to_status_witness :
  _handle integer_app (request "GET" "/unknownroute" "n=1")
    {| event_body := Some EmptyString |}
  = respond (status_response 404)
  /\ _handle integer_app (request "GET" "/factorial/" "n=abc")
       {| event_body := Some EmptyString |}
     = respond (status_response 422).
Proof.
  split.
  - apply (binding_errors_to_status integer_app
             (request "GET" "/unknownroute" "n=1")
             {| event_body := Some EmptyString |} VNone NotImplementedError);
      [reflexivity | vm_compute; reflexivity | vm_compute; reflexivity
      | reflexivity].
  - apply (binding_errors_to_status integer_app
             (request "GET" "/factorial/" "n=abc")
             {| event_body := Some EmptyString |} VNone ValueError);
      [reflexivity | vm_compute; reflexivity | vm_compute; reflexivity
      | reflexivity].
Defined.

(** ** The body and the query parameters *)

Lemma Param_in_keys_false (x : Param) (func_args : gmap string value) (b : bool) :
  Param_in_keys x func_args = inr b -> b = false.
Proof.
  unfold Param_in_keys. destruct (Param_hashable x); [|discriminate].
  intros [= <-]. induction (elements (dom func_args)) as [|k l IH];
    [reflexivity | exact IH].
Qed.

(** The comprehension keeps every declared query parameter. *)
Lemma diff_is_everything (func_args : gmap string value) (l : list Param) :
  forall acc d,
    foldl (fun (acc : result (list Param)) (x : Param) =>
             diff ← acc;
             found ← Param_in_keys x func_args;
             mret (if (found : bool) then diff else (diff ++ [x])%list))
          (inr acc) l = inr d ->
    d = (acc ++ l)%list.
Proof.
  induction l as [|x l IH]; intros acc d H.
  - simpl in H. injection H as <-. rewrite app_nil_r. reflexivity.
  - simpl in H. destruct (Param_in_keys x func_args) as [e|b] eqn:Hx.
    + simpl in H. exfalso. clear -H. induction l as [|y l IHl];
        [discriminate | exact (IHl H)].
    + apply Param_in_keys_false in Hx as ->. simpl in H.
      apply IH in H as ->. rewrite <- app_assoc. reflexivity.
Qed.

Lemma assign_all_lookup (data : value) (l : list Param) :
  forall (func_args : gmap string value) (p : Param),
    p ∈ l ->
    foldl (fun func_args (p : Param) => <[name p := data]> func_args) func_args l
      !! name p = Some data.
Proof.
  induction l as [|x l IH] using rev_ind; intros func_args p Hp.
  - apply elem_of_nil in Hp as [].
  - rewrite foldl_snoc. destruct (decide (name x = name p)) as [E|E].
    + rewrite E. apply lookup_insert_eq.
    + rewrite lookup_insert_ne by exact E. apply IH.
      apply elem_of_app in Hp as [Hp|Hp]; [exact Hp|].
      apply list_elem_of_singleton in Hp as ->. congruence.
Qed.

(** With a body that is not [None], every declared query parameter ends
    up bound to the body, the ones the query string had bound included:
    the test [x not in func_args.keys()] compares a [Parameter] with
    strings and never finds it. *)
Lemma bind_data_overwrites (endpoint : Endpoint) (data : value)
    (func_args m : gmap string value) :
  is_None data = false ->
  bind_data endpoint data func_args = inr m ->
  forall p, p ∈ query_args endpoint -> m !! name p = Some data.
Proof.
  unfold bind_data. intros -> H p Hp.
  apply bind_inr_inv in H as (diff & Hdiff & H).
  apply diff_is_everything in Hdiff. simpl in Hdiff. subst diff.
  injection H as <-. apply assign_all_lookup. exact Hp.
Qed.

(** C1, evaluated.  [GET /factorial/?n=5] with the body [7] binds [n] to
    the body, 7, and not to the 5 of the query string: the response carries
    5040, the factorial of 7.  With an empty body the same request carries
    120. *)
Theorem body_overwrites_bound_query (str_of_mean : value -> result string) :
  match find_endpoint (app str_of_mean) "/factorial/" "n=5" "GET" (VInt 7) with
  | inr (_, func_args) => func_args !! "n" = Some (VInt 7)
  | inl _ => False
  end
  /\ _handle (app str_of_mean) (request "GET" "/factorial/" "n=5")
       {| event_body := Some "7" |}
     = respond {| body := result_text "5040";
                  status_code := 200;
                  headers := [("content-type", "text/plain")] |}
  /\ _handle (app str_of_mean) (request "GET" "/factorial/" "n=5")
       {| event_body := Some EmptyString |}
     = respond {| body := result_text "120";
                  status_code := 200;
                  headers := [("content-type", "text/plain")] |}.
Proof. split; [|split]; vm_compute; reflexivity. Qed.

(** ** Registration *)

Lemma split_without_separator (sep : ascii) (s : string) :
  contains sep s = false -> split sep s = [s].
Proof.
  induction s as [|c s IH]; [reflexivity|].
  simpl. intros H. apply orb_false_iff in H as [Hc Hs].
  rewrite Ascii.eqb_sym, Hc, (IH Hs). reflexivity.
Qed.

Lemma split_at_separator (sep : ascii) (seg rest : string) :
  contains sep seg = false ->
  split sep (seg ++ String sep rest) = seg :: split sep rest.
Proof.
  induction seg as [|c seg IH]; simpl.
  - intros _. rewrite Ascii.eqb_refl. reflexivity.
  - intros H. apply orb_false_iff in H as [Hc Hs].
    rewrite Ascii.eqb_sym, Hc, (IH Hs). reflexivity.
Qed.

Lemma append_empty (s : string) : s ++ EmptyString = s.
Proof.
  induction s as [|c s IH]; [reflexivity|].
  change (String c (s ++ EmptyString) = String c s). rewrite IH. reflexivity.
Qed.

(** C6, as the code has it.  For a template that starts with a slash
    followed by a non-empty first segment, the registered key is that
    segment, which is the first non-empty segment of the template; what
    follows it is dropped. *)
Theorem route_key_of_rooted_template (self : Registerer)
    (seg rest method : string) (func : Callable) :
  seg <> EmptyString ->
  contains "/" seg = false ->
  (rest = EmptyString \/ exists tail, rest = String "/" tail) ->
  exists r,
    add_endpoint self (String "/" (seg ++ rest)) method func = inr r
    /\ last_key r = Some seg
    /\ first_nonempty_segment (String "/" (seg ++ rest)) = Some seg.
Proof.
  intros Hne Hseg Hrest.
  assert (Hsplit : exists more, split "/" (String "/" (seg ++ rest))
                                = EmptyString :: seg :: more).
  { destruct Hrest as [->|[tail ->]].
    - exists []. rewrite append_empty. cbn [split]. rewrite Ascii.eqb_refl.
      rewrite (split_without_separator _ _ Hseg). reflexivity.
    - exists (split "/" tail). cbn [split]. rewrite Ascii.eqb_refl.
      rewrite (split_at_separator _ _ _ Hseg). reflexivity. }
  destruct Hsplit as [more Hsplit].
  unfold add_endpoint, first_nonempty_segment. rewrite Hsplit.
  destruct (foldl _ _ (parameters func)) as [pa qa]. simpl.
  eexists. split; [reflexivity|]. split.
  - unfold last_key, endpoints. simpl. rewrite last_snoc. reflexivity.
  - rewrite filter_cons_False by (intros H; apply H; reflexivity).
    rewrite filter_cons_True by exact Hne. reflexivity.
Qed.

Lemma route_key_of_rooted_template_witness :
  exists r,
    add_endpoint Registerer_init "/fibonacci/{n}" "GET" (handler "n" int fibonacci)
      = inr r
    /\ last_key r = Some "fibonacci"
    /\ first_nonempty_segment "/fibonacci/{n}" = Some "fibonacci".
Proof.
  apply (route_key_of_rooted_template Registerer_init "fibonacci" "/{n}" "GET"
           (handler "n" int fibonacci)).
  - discriminate.
  - reflexivity.
  - right. exists "{n}". reflexivity.
Defined.

(** C6 as stated fails: for the template [fibonacci/{n}], without the
    leading slash, the registered key is the placeholder, and the first
    non-empty segment is [fibonacci]. *)
Lemma route_key_of_unrooted_template :
  exists r,
    add_endpoint Registerer_init "fibonacci/{n}" "GET" (handler "n" int fibonacci)
      = inr r
    /\ last_key r = Some "{n}"
    /\ first_nonempty_segment "fibonacci/{n}" = Some "fibonacci".
Proof. eexists. split; [reflexivity|]. split; reflexivity. Qed.

(** A template without any slash cannot be registered. *)
Example template_without_slash :
  add_endpoint Registerer_init "fibonacci" "GET" (handler "n" int fibonacci)
  = inl IndexError.
Proof. reflexivity. Qed.

(** * Further properties of the code *)

(** ** One response per request *)

(** X1.  When every response that the body of a registered handler
    returns has a body that is a [str] and can be encoded, a request ends
    in one of two ways, whatever the scope and the event: exactly two
    events were sent, the start of a response and then its whole body with
    [more_body] false, and nothing is raised; or nothing was sent and an
    exception leaves the application.  (A body that [encode] refuses is
    outside this statement: the start event is sent before the body is
    encoded.) *)
Theorem one_response_or_none (self : MyApp) (scope : Scope) (event : Event) :
  (forall endpoint locals answer,
     endpoint ∈ endpoints (_registerer self) ->
     MyAPI.code (func endpoint) locals = inr answer ->
     encodable (body answer) = true) ->
  (exists status headers body,
      sent (_handle self scope event)
      = [ http_response_start status headers; http_response_body body false ]
      /\ raised (_handle self scope event) = None)
  \/ (sent (_handle self scope event) = []
      /\ exists e, raised (_handle self scope event) = Some e).
Proof.
  intros _.
  unfold _handle. destruct (String.eqb (scope_type scope) "http");
    [|right; split; [reflexivity | eexists; reflexivity]].
  unfold _handle_http. cbn [connection receive MyAPI.scope].
  destruct (decode_body event) as [e|data];
    [right; split; [reflexivity | eexists; reflexivity]|].
  match goal with
  | |- context [match ?a with inl _ => _ | inr _ => _ end] => destruct a as [e|answer]
  end.
  - destruct (caught_by [ValueError; TypeError; JSONDecodeError] e);
      [left; eexists _, _, _; split; reflexivity|].
    destruct (caught_by [NotImplementedError] e);
      [left; eexists _, _, _; split; reflexivity|].
    right. split; [reflexivity | eexists; reflexivity].
  - left. eexists _, _, _. split; reflexivity.
Qed.

Lemma one_response_or_none_witness :
  (exists status headers body,
      sent (_handle pair_app (request "GET" "/pair/" "a=1&b=2")
              {| event_body := Some EmptyString |})
      = [ http_response_start status headers; http_response_body body false ]
      /\ raised (_handle pair_app (request "GET" "/pair/" "a=1&b=2")
                   {| event_body := Some EmptyString |}) = None)
  \/ (sent (_handle pair_app (request "GET" "/pair/" "a=1&b=2")
              {| event_body := Some EmptyString |}) = []
      /\ exists e, raised (_handle pair_app (request "GET" "/pair/" "a=1&b=2")
                             {| event_body := Some EmptyString |}) = Some e).
Proof.
  apply (one_response_or_none pair_app (request "GET" "/pair/" "a=1&b=2")
           {| event_body := Some EmptyString |}).
  intros endpoint locals answer Hin Hcode.
  change (endpoints (_registerer pair_app))
    with [ {| path := "pair"; method := "GET"; func := pair_handler;
              path_args := []; query_args := parameters pair_handler |} ] in Hin.
  apply list_elem_of_singleton in Hin. subst endpoint.
  injection Hcode as <-. reflexivity.
Defined.

(** ** The handler call *)

(** What [_handle_http] does once [find_endpoint] has returned. *)
Lemma handle_found (self : MyApp) (scope : Scope) (event : Event)
    (data : value) (endpoint : Endpoint) (func_args : gmap string value) :
  scope_type scope = "http" ->
  decode_body event = inr data ->
  find_endpoint self (scope_path scope) (scope_query_string scope)
    (scope_method scope) data = inr (endpoint, func_args) ->
  _handle self scope event
  = match call (func endpoint) func_args with
    | inr answer => respond answer
    | inl e =>
        if caught_by [ValueError; TypeError; JSONDecodeError] e
        then respond (status_response 422)
        else if caught_by [NotImplementedError] e
        then respond (status_response 404)
        else propagate e
    end.
Proof.
  intros Ht Hd Hf. unfold _handle, _handle_http. rewrite Ht. simpl String.eqb.
  cbv iota. cbn [connection receive MyAPI.scope]. rewrite Hd.
  unfold find_endpoint in *. cbn [_registerer]. rewrite Hf. simpl.
  destruct (call (func endpoint) func_args); reflexivity.
Qed.

(** X2.  Once an endpoint is matched and bound, the response the handler
    returns is sent as it is, status, headers and body, when its body is a
    [str] that can be encoded.  An exception the handler raises is treated
    like one raised while binding: a
    [ValueError] or a [TypeError] is answered 422, a [NotImplementedError]
    is answered 404 although the route matched, and any other exception
    leaves the application with nothing sent. *)
Theorem handler_result_decides (self : MyApp) (scope : Scope) (event : Event)
    (data : value) (endpoint : Endpoint) (func_args : gmap string value) :
  scope_type scope = "http" ->
  decode_body event = inr data ->
  find_endpoint self (scope_path scope) (scope_query_string scope)
    (scope_method scope) data = inr (endpoint, func_args) ->
  (forall answer, call (func endpoint) func_args = inr answer ->
     encodable (body answer) = true ->
     _handle self scope event = respond answer)
  /\ (forall e, call (func endpoint) func_args = inl e ->
        (isinstance e ValueError || isinstance e TypeError = true ->
         _handle self scope event = respond (status_response 422))
        /\ (isinstance e NotImplementedError = true ->
            _handle self scope event = respond (status_response 404))
        /\ (isinstance e ValueError = false -> isinstance e TypeError = false ->
            isinstance e NotImplementedError = false ->
            _handle self scope event = propagate e)).
Proof.
  intros Ht Hd Hf. rewrite (handle_found self scope event data endpoint func_args Ht Hd Hf).
  split.
  - intros answer -> _. reflexivity.
  - intros e ->. repeat split.
    + destruct e; simpl; intros H; try discriminate H; reflexivity.
    + destruct e; simpl; intros H; try discriminate H; reflexivity.
    + destruct e; simpl; intros H1 H2 H3;
        try discriminate H1; try discriminate H2; try discriminate H3; reflexivity.
Qed.

Lemma handler_result_decides_witness :
  _handle integer_app (request "GET" "/factorial/" "n=-3")
    {| event_body := Some EmptyString |}
  = respond (status_response 400)
  /\ _handle integer_app (request "GET" "/factorial/" EmptyString)
       {| event_body := Some "[1]" |}
     = respond (status_response 422).
Proof.
  split.
  - apply (proj1 (handler_result_decides integer_app
                    (request "GET" "/factorial/" "n=-3")
                    {| event_body := Some EmptyString |} VNone factorial_endpoint
                    (<["n" := VInt (-3)]> ∅)
                    eq_refl eq_refl eq_refl));
      [vm_compute; reflexivity | reflexivity].
  - apply (proj2 (handler_result_decides integer_app
                    (request "GET" "/factorial/" EmptyString)
                    {| event_body := Some "[1]" |} (VList [VInt 1]) factorial_endpoint
                    (<["n" := VList [VInt 1]]> ∅)
                    eq_refl eq_refl eq_refl) TypeError);
      [vm_compute; reflexivity | reflexivity].
Defined.

(** ** Registration *)

Lemma classify_fold (args : list string) (signature : list Param) :
  forall path_args query_args : list Param,
    foldl (fun '(path_args, query_args) (arg : Param) =>
             if bool_decide (name arg ∈ args)
             then ((path_args ++ [arg])%list, query_args)
             else (path_args, (query_args ++ [arg])%list))
          (path_args, query_args) signature
    = ((path_args ++ filter (fun p => name p ∈ args) signature)%list,
       (query_args ++ filter (fun p => name p ∉ args) signature)%list).
Proof.
  induction signature as [|x l IH]; intros path_args query_args.
  - simpl. rewrite !app_nil_r. reflexivity.
  - simpl. rewrite !filter_cons.
    case_bool_decide as Hx; rewrite IH;
      destruct (decide (name x ∈ args)) as [Hin|Hin];
      destruct (decide (name x ∉ args)) as [Hout|Hout];
      try contradiction; rewrite <- app_assoc; reflexivity.
Qed.

Lemma Dict_set_fresh {A} (d : list (string * A)) (k : string) (v : A) :
  k ∉ Dict.keys d -> Dict.set d k v = (d ++ [(k, v)])%list.
Proof.
  induction d as [|[k' v'] d IH]; [reflexivity|].
  simpl. intros Hk. apply not_elem_of_cons in Hk as [Hne Hk].
  destruct (String.eqb k' k) eqn:E.
  - apply String.eqb_eq in E. congruence.
  - rewrite (IH Hk). reflexivity.
Qed.

Lemma dict_of_params (l : list Param) :
  forall d : list (string * Annotation),
    NoDup (Dict.keys d ++ (name <$> l)) ->
    foldl (fun d (p : Param) => Dict.set d (name p) (annotation p)) d l
    = (d ++ ((fun p => (name p, annotation p)) <$> l))%list.
Proof.
  induction l as [|x l IH]; intros d Hnd.
  - simpl. rewrite app_nil_r. reflexivity.
  - simpl. simpl in Hnd. apply NoDup_app in Hnd as (Hd & Hdisj & Hl).
    apply NoDup_cons in Hl as [Hx Hl].
    rewrite Dict_set_fresh by (intros Hin; apply (Hdisj _ Hin); left).
    rewrite IH.
    + rewrite <- app_assoc. reflexivity.
    + unfold Dict.keys. rewrite fmap_app. simpl. rewrite <- app_assoc. simpl.
      apply NoDup_app. split; [exact Hd|]. split.
      * intros k Hk Hin. apply (Hdisj k Hk). exact Hin.
      * apply NoDup_cons. split; assumption.
Qed.

(** X4.  Registration sorts the parameters of the handler by the
    placeholders of the template: a parameter whose name stands between
    braces in the template becomes a path parameter, every other one a query
    parameter, each group in the order of the handler's declaration and
    with the declared annotation.  The new endpoint goes to the end of the
    table, behind the endpoints registered before, with the handler and the
    method given. *)
Theorem registration_classifies_parameters (self : Registerer)
    (template method : string) (func : Callable) (r : Registerer) :
  NoDup (name <$> parameters func) ->
  add_endpoint self template method func = inr r ->
  exists ep,
    endpoints r = (endpoints self ++ [ep])%list
    /\ MyAPI.func ep = func
    /\ MyAPI.method ep = method
    /\ path_args ep
       = (fun p => (name p, annotation p))
           <$> filter (fun p => name p ∈ Re.findall_placeholders template)
                 (parameters func)
    /\ query_args ep
       = filter (fun p => name p ∉ Re.findall_placeholders template)
           (parameters func).
Proof.
  intros Hnd H. unfold add_endpoint in H. rewrite classify_fold in H.
  simpl in H. apply bind_inr_inv in H as (key & _ & H). injection H as <-.
  eexists. split; [reflexivity|]. simpl. repeat split.
  rewrite dict_of_params; [reflexivity|]. simpl.
  apply (sublist_NoDup _ _ Hnd). apply fmap_sublist. apply sublist_filter.
Qed.

Lemma registration_classifies_parameters_witness :
  exists ep,
    endpoints (loaded (add_endpoint Registerer_init "/pair/{b}" "GET" pair_handler))
    = [ep]
    /\ path_args ep = [("b", list_)]
    /\ query_args ep = [ {| name := "a"; annotation := int; default := None |} ].
Proof.
  assert (Hnd : NoDup (name <$> parameters pair_handler)).
  { simpl. apply NoDup_cons. split.
    - intros H. apply list_elem_of_singleton in H. discriminate H.
    - apply NoDup_singleton. }
  destruct (registration_classifies_parameters Registerer_init "/pair/{b}" "GET"
              pair_handler
              (loaded (add_endpoint Registerer_init "/pair/{b}" "GET" pair_handler))
              Hnd eq_refl)
    as (ep & Heps & _ & _ & Hpa & Hqa).
  exists ep. split; [exact Heps|]. split; [exact Hpa | exact Hqa].
Defined.

Lemma split_with_separator (sep : ascii) (s : string) :
  contains sep s = true -> exists a b rest, split sep s = a :: b :: rest.
Proof.
  induction s as [|c s IH]; [discriminate|].
  simpl. rewrite (Ascii.eqb_sym c sep). destruct (Ascii.eqb sep c); simpl.
  - intros _. destruct (split sep s) as [|b rest] eqn:E.
    + destruct s as [|d s']; simpl in E; [discriminate|].
      destruct (Ascii.eqb d sep); [discriminate|].
      destruct (split sep s'); discriminate.
    + eexists _, _, _. reflexivity.
  - intros H. destruct (IH H) as (a & b & rest & ->). eexists _, _, _. reflexivity.
Qed.

(** X5.  A template can be registered exactly when it contains a slash:
    without one, taking the second part of the split template fails with
    an index out of range, and nothing is added to the table. *)
Theorem registration_needs_a_slash (self : Registerer)
    (template method : string) (func : Callable) :
  (contains "/" template = true ->
   exists r, add_endpoint self template method func = inr r)
  /\ (contains "/" template = false ->
      add_endpoint self template method func = inl IndexError).
Proof.
  unfold add_endpoint. rewrite classify_fold. simpl. split; intros H.
  - destruct (split_with_separator _ _ H) as (a & b & rest & ->).
    eexists. reflexivity.
  - rewrite (split_without_separator _ _ H). reflexivity.
Qed.

Lemma registration_needs_a_slash_witness :
  (exists r, add_endpoint Registerer_init "/mean/" "GET" pair_handler = inr r)
  /\ add_endpoint Registerer_init "mean" "GET" pair_handler = inl IndexError.
Proof.
  split.
  - apply (proj1 (registration_needs_a_slash Registerer_init "/mean/" "GET"
                    pair_handler)). reflexivity.
  - apply (proj2 (registration_needs_a_slash Registerer_init "mean" "GET"
                    pair_handler)). reflexivity.
Defined.

(** ** First match wins *)

Lemma first_match_snoc (endpoints : list Endpoint) (earlier later : Endpoint)
    (key method : string) :
  earlier ∈ endpoints ->
  path later = path earlier -> MyAPI.method later = MyAPI.method earlier ->
  first_match (endpoints ++ [later])%list key method
  = first_match endpoints key method.
Proof.
  intros Hin Hp Hm. unfold first_match. induction endpoints as [|ep eps IH].
  - apply elem_of_nil in Hin as [].
  - simpl. destruct (String.eqb (path ep) key && String.eqb (MyAPI.method ep) method)
      eqn:E; [reflexivity|].
    apply elem_of_cons in Hin as [->|Hin]; [|exact (IH Hin)].
    clear IH. induction eps as [|x eps IH]; simpl.
    + rewrite Hp, Hm, E. reflexivity.
    + destruct (String.eqb (path x) key && String.eqb (MyAPI.method x) method);
        [reflexivity | exact IH].
Qed.

(** The dispatcher sees the table only through its first matches. *)
Lemma handle_table_ext (r1 r2 : Registerer) (scope : Scope) (event : Event) :
  (forall key method,
     first_match (endpoints r1) key method = first_match (endpoints r2) key method) ->
  _handle (MyApp_init r1) scope event = _handle (MyApp_init r2) scope event.
Proof.
  intros Hext. unfold _handle. destruct (String.eqb (scope_type scope) "http");
    [|reflexivity].
  unfold _handle_http. cbn [connection receive MyAPI.scope MyApp_init].
  destruct (decode_body event) as [e|data]; [reflexivity|].
  unfold find_endpoint. cbn [_registerer].
  destruct (parse_request _ _) as [e|[[key segments] query_args]]; [reflexivity|].
  simpl. rewrite !match_endpoint_first_match, Hext. reflexivity.
Qed.

(** X6.  An endpoint registered under a key and a method that an earlier
    endpoint already has is never reached: every request is handled
    exactly as before the registration. *)
Theorem later_duplicate_is_unreachable (r r' : Registerer)
    (template method : string) (func : Callable) (earlier : Endpoint) :
  add_endpoint r template method func = inr r' ->
  earlier ∈ endpoints r ->
  split "/" template !! 1%nat = Some (path earlier) ->
  MyAPI.method earlier = method ->
  forall scope event,
    _handle (MyApp_init r') scope event = _handle (MyApp_init r) scope event.
Proof.
  intros Hadd Hin Hkey Hm scope event. apply handle_table_ext. intros key m.
  unfold add_endpoint in Hadd. rewrite classify_fold, Hkey in Hadd. simpl in Hadd.
  injection Hadd as <-. unfold endpoints. simpl.
  apply (first_match_snoc _ earlier); [exact Hin | reflexivity | symmetry; exact Hm].
Qed.

Lemma later_duplicate_is_unreachable_witness :
  _handle (MyApp_init
             (loaded (r ← integer_registrations;
                      register r "/fibonacci/" "GET" pair_handler)))
    (request "GET" "/fibonacci/7" EmptyString) {| event_body := Some EmptyString |}
  = _handle integer_app
      (request "GET" "/fibonacci/7" EmptyString) {| event_body := Some EmptyString |}.
Proof.
  apply (later_duplicate_is_unreachable (loaded integer_registrations) _
           "/fibonacci/" "GET" pair_handler fibonacci_endpoint).
  - reflexivity.
  - right. left.
  - reflexivity.
  - reflexivity.
Defined.

(** ** Binding the path segments, continued *)

Lemma Dict_get_NoDup {A} (d : list (string * A)) (i : nat) (k : string) (v : A) :
  NoDup (Dict.keys d) -> d !! i = Some (k, v) -> Dict.get d k = Some v.
Proof.
  revert i. induction d as [|[k' v'] d IH]; intros i Hnd Hi; [destruct i; discriminate|].
  simpl in Hnd. apply NoDup_cons in Hnd as [Hfresh Hnd]. simpl.
  destruct i as [|i]; simpl in Hi.
  - injection Hi as -> ->. rewrite String.eqb_refl. reflexivity.
  - destruct (String.eqb k' k) eqn:E; [|exact (IH i Hnd Hi)].
    apply String.eqb_eq in E as ->. exfalso. apply Hfresh.
    apply list_elem_of_lookup. exists i. unfold Dict.keys.
    rewrite list_lookup_fmap, Hi. reflexivity.
Qed.

Lemma bind_path_args_spec (endpoint : Endpoint) (segments : list string) :
  NoDup (Dict.keys (path_args endpoint)) ->
  forall (i : nat) (func_args m : gmap string value),
    bind_path_args endpoint i segments func_args = inr m ->
    (forall j seg, segments !! j = Some seg ->
       exists name type v,
         path_args endpoint !! (i + j)%nat = Some (name, type)
         /\ type (Str seg) = inr v /\ m !! name = Some v)
    /\ (forall k,
          (forall j, (j < length segments)%nat ->
             Dict.keys (path_args endpoint) !! (i + j)%nat <> Some k) ->
          m !! k = func_args !! k).
Proof.
  intros Hnd. induction segments as [|seg rest IH]; intros i func_args m Hb.
  - simpl in Hb. injection Hb as <-.
    split; [intros j ? Hj; destruct j; discriminate | reflexivity].
  - simpl in Hb.
    destruct (Dict.keys (path_args endpoint) !! i) as [arg_name|] eqn:Hk;
      [|discriminate].
    simpl in Hb.
    assert (Hentry : exists type, path_args endpoint !! i = Some (arg_name, type)).
    { unfold Dict.keys in Hk. rewrite list_lookup_fmap in Hk.
      destruct (path_args endpoint !! i) as [[k t]|]; [|discriminate].
      injection Hk as ->. eauto. }
    destruct Hentry as [type Hentry].
    rewrite (Dict_get_NoDup _ i arg_name type Hnd Hentry) in Hb. simpl in Hb.
    destruct (type (Str seg)) as [e|v] eqn:Hv; [discriminate|]. simpl in Hb.
    destruct (IH _ _ _ Hb) as [Hbound Hframe]. split.
    + intros [|j] seg' Hj.
      * injection Hj as <-. exists arg_name, type, v. rewrite Nat.add_0_r.
        split; [exact Hentry|]. split; [exact Hv|].
        rewrite Hframe; [apply lookup_insert_eq|].
        intros j Hlt Hdup.
        assert (S i + j = i)%nat; [|lia].
        apply (NoDup_lookup _ _ _ arg_name Hnd Hdup Hk).
      * replace (i + S j)%nat with (S i + j)%nat by lia. apply (Hbound j). exact Hj.
    + intros k Hk'. rewrite Hframe.
      * apply lookup_insert_ne. intros ->. apply (Hk' 0%nat); [simpl; lia|].
        rewrite Nat.add_0_r. exact Hk.
      * intros j Hlt. replace (S i + j)%nat with (i + S j)%nat by lia.
        apply Hk'. simpl. lia.
Qed.

(** X7.  When the loop over the path segments ends normally, there were
    no more segments than declared path parameters, the segment of index
    [i] is bound under the name of the [i]-th path parameter after
    conversion by its type, and the path parameters beyond the last segment
    are left unbound. *)
Theorem path_binding_is_positional (endpoint : Endpoint)
    (segments : list string) (m : gmap string value) :
  NoDup (Dict.keys (path_args endpoint)) ->
  bind_path_args endpoint 0 segments ∅ = inr m ->
  (length segments <= length (path_args endpoint))%nat
  /\ (forall i seg, segments !! i = Some seg ->
        exists name type v,
          path_args endpoint !! i = Some (name, type)
          /\ type (Str seg) = inr v /\ m !! name = Some v)
  /\ (forall i name type, (length segments <= i)%nat ->
        path_args endpoint !! i = Some (name, type) -> m !! name = None).
Proof.
  intros Hnd Hb. destruct (bind_path_args_spec endpoint segments Hnd 0 ∅ m Hb)
    as [Hbound Hframe].
  split; [|split].
  - destruct (decide (length segments <= length (path_args endpoint))%nat)
      as [Hle|Hgt]; [exact Hle|].
    destruct (lookup_lt_is_Some_2 segments (length (path_args endpoint)))
      as [seg Hseg]; [lia|].
    destruct (Hbound _ _ Hseg) as (name & type & v & Hentry & _).
    apply lookup_lt_Some in Hentry. simpl in Hentry.
    exfalso. exact (Nat.lt_irrefl _ Hentry).
  - intros i seg Hi. exact (Hbound i seg Hi).
  - intros i name type Hle Hentry. rewrite Hframe; [apply lookup_empty|].
    intros j Hlt Hdup. simpl in Hdup.
    assert (Hi : Dict.keys (path_args endpoint) !! i = Some name).
    { unfold Dict.keys. rewrite list_lookup_fmap, Hentry. reflexivity. }
    assert (j = i) by exact (NoDup_lookup _ _ _ name Hnd Hdup Hi). lia.
Qed.

Lemma path_binding_is_positional_witness :
  exists name type v,
    path_args fibonacci_endpoint !! 0%nat = Some (name, type)
    /\ type (Str "7") = inr v
    /\ (<["n" := VInt 7]> ∅ : gmap string value) !! name = Some v.
Proof.
  assert (Hnd : NoDup (Dict.keys (path_args fibonacci_endpoint))).
  { simpl. apply NoDup_singleton. }
  exact (proj1 (proj2 (path_binding_is_positional fibonacci_endpoint ["7"]
                         (<["n" := VInt 7]> ∅) Hnd eq_refl))
           0%nat "7" eq_refl).
Defined.

(** ** The handlers of [main.py], continued *)

Lemma product_of_range (k : nat) :
  forall acc : Z,
    foldl (fun x y => x * y) acc (range 1 (Z.of_nat k + 1))
    = acc * Z.of_nat (fact k).
Proof.
  unfold range. replace (Z.of_nat k + 1 - 1) with (Z.of_nat k) by lia.
  rewrite Nat2Z.id. induction k as [|k IH]; intros acc.
  - simpl. lia.
  - rewrite seq_S, fmap_app, foldl_app, IH. simpl foldl.
    change (fact (S k)) with (fact k + k * fact k)%nat. lia.
Qed.

Lemma factorial_of_natural (n : Z) :
  0 <= n ->
  factorial (VInt n) = result_response (of_Z (Z.of_nat (fact (Z.to_nat n)))).
Proof.
  intros H. unfold factorial. simpl. rewrite (proj2 (Z.ltb_ge n 0) H).
  rewrite <- (Z2Nat.id n H) at 1. rewrite product_of_range.
  rewrite Z.mul_1_l. reflexivity.
Qed.

(** X8.  [factorial] answers a negative integer with status 400 and an
    integer [n] that is not negative with the JSON response whose
    [result] is the decimal text of the factorial of [n]; for 0 that is
    1.  The factorial must have a decimal text: beyond
    [Json.max_str_digits] digits [str] raises a [ValueError], which
    [of_Z] does not model. *)
Theorem factorial_computes_the_factorial (n : Z) :
  (n < 0 -> factorial (VInt n) = inr (status_response 400))
  /\ (0 <= n ->
      (digit_count (Z.of_nat (fact (Z.to_nat n))) <= Json.max_str_digits)%nat ->
      factorial (VInt n) = result_response (of_Z (Z.of_nat (fact (Z.to_nat n))))).
Proof.
  split.
  - intros H. unfold factorial. simpl. rewrite (proj2 (Z.ltb_lt n 0) H).
    reflexivity.
  - intros H _. exact (factorial_of_natural n H).
Qed.

Lemma factorial_computes_the_factorial_witness :
  factorial (VInt (-3)) = inr (status_response 400)
  /\ factorial (VInt 5) = result_response "120".
Proof.
  split.
  - apply (proj1 (factorial_computes_the_factorial (-3))). lia.
  - apply (proj2 (factorial_computes_the_factorial 5));
      [lia | apply Nat.leb_le; reflexivity].
Defined.

Lemma fib_step (n : nat) : fib (S (S n)) = fib (S n) + fib n.
Proof. reflexivity. Qed.

Lemma fib_nonnegative (n : nat) : 0 <= fib n.
Proof.
  assert (H : forall k, 0 <= fib k /\ 0 <= fib (S k)).
  { induction k as [|k [IH1 IH2]]; [simpl; lia|].
    split; [exact IH2|]. rewrite fib_step. lia. }
  apply H.
Qed.

Lemma fibonacci_loop (k : nat) :
  foldl (fun '(a, b) (_ : Z) => (b, a + b)) (1, 1) (range 0 (Z.of_nat k))
  = (fib (S k), fib (S (S k))).
Proof.
  unfold range. rewrite Z.sub_0_r, Nat2Z.id. induction k as [|k IH].
  - reflexivity.
  - rewrite seq_S, fmap_app, foldl_app, IH. cbn [foldl fmap list_fmap].
    rewrite (fib_step (S k)). f_equal. apply Z.add_comm.
Qed.

Lemma fibonacci_from_one (n : Z) :
  1 <= n -> fibonacci (VInt n) = result_response (of_Z (fib (Z.to_nat n))).
Proof.
  intros H. unfold fibonacci. simpl. rewrite (proj2 (Z.ltb_ge n 0)) by lia.
  replace (n - 1) with (Z.of_nat (Z.to_nat n - 1)) by lia.
  rewrite fibonacci_loop.
  replace (S (Z.to_nat n - 1)) with (Z.to_nat n) by lia. reflexivity.
Qed.

(** X9.  [fibonacci] answers a negative integer with status 400 and an
    integer [n] from 1 on with the JSON response whose [result] is the
    decimal text of the [n]-th Fibonacci number (1, 1, 2, 3, 5, ...), as
    long as that number has a decimal text ([str] raises a [ValueError]
    beyond [Json.max_str_digits] digits).  For 0 the loop does not run and
    the result is 1 as well, not the number 0 that precedes the
    sequence. *)
Theorem fibonacci_computes_fibonacci (n : Z) :
  (n < 0 -> fibonacci (VInt n) = inr (status_response 400))
  /\ (1 <= n ->
      (digit_count (fib (Z.to_nat n)) <= Json.max_str_digits)%nat ->
      fibonacci (VInt n) = result_response (of_Z (fib (Z.to_nat n))))
  /\ fibonacci (VInt 0) = result_response "1".
Proof.
  split; [|split].
  - intros H. unfold fibonacci. simpl. rewrite (proj2 (Z.ltb_lt n 0) H).
    reflexivity.
  - intros H _. exact (fibonacci_from_one n H).
  - reflexivity.
Qed.

Lemma fibonacci_computes_fibonacci_witness :
  fibonacci (VInt (-1)) = inr (status_response 400)
  /\ fibonacci (VInt 10) = result_response "55".
Proof.
  split.
  - apply (proj1 (fibonacci_computes_fibonacci (-1))). lia.
  - apply (proj1 (proj2 (fibonacci_computes_fibonacci 10)));
      [lia | apply Nat.leb_le; reflexivity].
Defined.

(** ** The body and the query parameters, continued *)

Lemma assign_all_frame (data : value) (l : list Param) :
  forall (func_args : gmap string value) (k : string),
    k ∉ name <$> l ->
    foldl (fun func_args (p : Param) => <[name p := data]> func_args) func_args l
      !! k = func_args !! k.
Proof.
  induction l as [|x l IH]; intros func_args k Hk; [reflexivity|].
  simpl in Hk. apply not_elem_of_cons in Hk as [Hne Hk].
  simpl. rewrite (IH _ _ Hk). apply lookup_insert_ne. congruence.
Qed.

(** X10.  Without a body ([None]) the third step of the binder changes
    nothing.  With a body, when the step ends normally, the bindings after
    it are exactly these: every name of a declared query parameter is bound
    to the whole body, all of them to the same value, and every other
    name, the path parameters among them, keeps the binding it had. *)
Theorem body_step_rebinds_the_query_parameters (endpoint : Endpoint)
    (data : value) (func_args : gmap string value) :
  (is_None data = true -> bind_data endpoint data func_args = inr func_args)
  /\ (forall m, is_None data = false ->
        bind_data endpoint data func_args = inr m ->
        forall k,
          m !! k = if bool_decide (k ∈ name <$> query_args endpoint)
                   then Some data else func_args !! k).
Proof.
  split.
  - intros H. unfold bind_data. rewrite H. reflexivity.
  - intros m Hdata Hb k. case_bool_decide as Hk.
    + apply list_elem_of_fmap in Hk as (p & -> & Hp).
      exact (bind_data_overwrites endpoint data func_args m Hdata Hb p Hp).
    + unfold bind_data in Hb. rewrite Hdata in Hb.
      apply bind_inr_inv in Hb as (diff & Hdiff & Hb).
      apply diff_is_everything in Hdiff. simpl in Hdiff. subst diff.
      injection Hb as <-. apply assign_all_frame. exact Hk.
Qed.

Lemma body_step_rebinds_the_query_parameters_witness :
  bind_data factorial_endpoint VNone {[ "n" := VInt 5 ]}
  = inr {[ "n" := VInt 5 ]}
  /\ exists m,
       bind_data factorial_endpoint (VInt 7) {[ "n" := VInt 5; "k" := VInt 1 ]}
       = inr m
       /\ m !! "n" = Some (VInt 7) /\ m !! "k" = Some (VInt 1).
Proof.
  split.
  - apply (proj1 (body_step_rebinds_the_query_parameters
                    factorial_endpoint VNone {[ "n" := VInt 5 ]})).
    reflexivity.
  - exists {[ "n" := VInt 7; "k" := VInt 1 ]}.
    assert (H : bind_data factorial_endpoint (VInt 7)
                  {[ "n" := VInt 5; "k" := VInt 1 ]}
                = inr {[ "n" := VInt 7; "k" := VInt 1 ]})
      by (vm_compute; reflexivity).
    split; [exact H|].
    split.
    + rewrite (proj2 (body_step_rebinds_the_query_parameters
                        factorial_endpoint (VInt 7) _) _ eq_refl H "n").
      reflexivity.
    + rewrite (proj2 (body_step_rebinds_the_query_parameters
                        factorial_endpoint (VInt 7) _) _ eq_refl H "k").
      reflexivity.
Defined.

(** ** Path segments *)

Lemma split_app_separator (sep : ascii) (a b : string) :
  split sep (a ++ String sep b) = (split sep a ++ split sep b)%list.
Proof.
  induction a as [|c a IH].
  - simpl. rewrite Ascii.eqb_refl. reflexivity.
  - change (String c a ++ String sep b) with (String c (a ++ String sep b)).
    cbn [split]. rewrite IH. destruct (Ascii.eqb c sep); [reflexivity|].
    destruct (split sep a) as [|h t] eqn:E; [|reflexivity].
    exfalso. destruct a as [|d a']; simpl in E; [discriminate|].
    destruct (Ascii.eqb d sep); [discriminate|].
    destruct (split sep a'); discriminate.
Qed.

Lemma plain_char (c : ascii) :
  plain c = true ->
  Urllib.is_unsafe_url_byte c = false
  /\ Ascii.eqb c ":" = false /\ Ascii.eqb c "#" = false
  /\ Ascii.eqb c "?" = false.
Proof.
  intros H.
  destruct c as [[] [] [] [] [] [] [] []]; vm_compute in H; try discriminate H;
    vm_compute; repeat split; reflexivity.
Qed.

Lemma plain_remove (s : string) :
  PyStr.forallb plain s = true -> remove Urllib.is_unsafe_url_byte s = s.
Proof.
  induction s as [|c r IH]; [reflexivity|]. intros H.
  simpl in H. apply andb_true_iff in H as [Hc Hr].
  simpl. rewrite (proj1 (plain_char c Hc)), (IH Hr). reflexivity.
Qed.

Lemma plain_split_once (sep : ascii) (s : string) :
  (forall c, plain c = true -> Ascii.eqb c sep = false) ->
  PyStr.forallb plain s = true -> split_once sep s = None.
Proof.
  intros Hsep. induction s as [|c r IH]; [reflexivity|]. intros H.
  simpl in H. apply andb_true_iff in H as [Hc Hr].
  simpl. rewrite (Hsep c Hc), (IH Hr). reflexivity.
Qed.

(** [urlsplit] finds no scheme, authority, query or fragment in a plain
    path: the path is the whole text. *)
Lemma urlsplit_plain_path (p : string) :
  plain_path p = true -> Urllib.urlsplit_path p = inr p.
Proof.
  unfold plain_path. intros H. apply andb_true_iff in H as [Hall H].
  destruct p as [|a rest]; [discriminate H|].
  apply andb_true_iff in H as [Ha Hsec]. apply Ascii.eqb_eq in Ha. subst a.
  unfold Urllib.urlsplit_path.
  change (lstrip Urllib.is_c0_control_or_space (String "/" rest))
    with (String "/" rest).
  rewrite (plain_remove _ Hall).
  rewrite (plain_split_once ":" _ (fun c Hc => proj1 (proj2 (plain_char c Hc))) Hall).
  assert (Hurl : forall A (k : string -> result A),
            (match String "/" rest with
             | String "/" (String "/" after) =>
                 let '(netloc, rest) := Urllib.break Urllib.is_netloc_end after in
                 if xorb (contains "[" netloc) (contains "]" netloc)
                 then raise ValueError else mret rest
             | _ => mret (String "/" rest)
             end ≫= k) = k (String "/" rest)).
  { intros A k. destruct rest as [|b rest']; [reflexivity|].
    simpl in Hsec.
    destruct b as [[] [] [] [] [] [] [] []]; try reflexivity.
    discriminate Hsec. }
  rewrite Hurl.
  rewrite (plain_split_once "#" _ (fun c Hc => proj1 (proj2 (proj2 (plain_char c Hc)))) Hall).
  rewrite (plain_split_once "?" _ (fun c Hc => proj2 (proj2 (proj2 (plain_char c Hc)))) Hall).
  reflexivity.
Qed.

Lemma forallb_append (f : ascii -> bool) (a b : string) :
  PyStr.forallb f (a ++ b) = PyStr.forallb f a && PyStr.forallb f b.
Proof.
  induction a as [|c a IH]; [reflexivity|].
  change (String c a ++ b) with (String c (a ++ b)).
  cbn [PyStr.forallb]. rewrite IH. apply andb_assoc.
Qed.

(** Two paths that [urlsplit] leaves whole and that have the same
    non-empty segments are the same request. *)
Lemma parse_request_segments (p p' query_string : string) :
  Urllib.urlsplit_path p = inr p -> Urllib.urlsplit_path p' = inr p' ->
  filter (fun x : string => x ≠ EmptyString) (split "/" p)
  = filter (fun x : string => x ≠ EmptyString) (split "/" p') ->
  parse_request p query_string = parse_request p' query_string.
Proof.
  intros H H' E. unfold parse_request. rewrite H, H'.
  unfold mbind at 1 3. unfold result_bind at 1 3. rewrite E. reflexivity.
Qed.

(** X11.  On a plain path (letters, digits, hyphens, dots, underscores
    and slashes, with one slash at the start) a slash at the end, and a
    slash doubled after the first segment has begun, add no segment: the
    route key, the path arguments and the query dictionary are those of
    the path without it.  [/factorial] and [/factorial/] are the same
    request.  Two slashes at the very start are another matter: there
    [urlsplit] reads an authority. *)
Theorem empty_segments_are_dropped (query_string : string) :
  (forall p, plain_path p = true ->
     parse_request (p ++ "/") query_string = parse_request p query_string)
  /\ (forall a b, a <> EmptyString -> plain_path (a ++ String "/" b) = true ->
        parse_request (a ++ String "/" (String "/" b)) query_string
        = parse_request (a ++ String "/" b) query_string).
Proof.
  split.
  - intros p Hp. destruct p as [|c [|d r]]; [discriminate Hp| |].
    + unfold plain_path in Hp. simpl in Hp.
      apply andb_true_iff in Hp as [_ Hp]. apply andb_true_iff in Hp as [Hc _].
      apply Ascii.eqb_eq in Hc. subst c. reflexivity.
    + apply parse_request_segments.
      * apply urlsplit_plain_path. unfold plain_path in *.
        apply andb_true_iff in Hp as [Hall Hhead].
        rewrite forallb_append, Hall. exact Hhead.
      * apply urlsplit_plain_path. exact Hp.
      * rewrite split_app_separator, filter_app. simpl. apply app_nil_r.
  - intros a b Ha Hp. apply parse_request_segments.
    + apply urlsplit_plain_path. unfold plain_path in *.
      apply andb_true_iff in Hp as [Hall Hhead].
      rewrite forallb_append in Hall. apply andb_true_iff in Hall as [Hall_a Hall_b].
      rewrite forallb_append, Hall_a. cbn [PyStr.forallb] in *.
      apply andb_true_iff in Hall_b as [_ Hall_b]. rewrite Hall_b.
      change (plain "/"%char) with true. cbn [andb].
      destruct a as [|c [|d r]]; [contradiction| |exact Hhead].
      simpl in Hhead. apply andb_true_iff in Hhead as [_ Hhead]. discriminate Hhead.
    + apply urlsplit_plain_path. exact Hp.
    + rewrite !split_app_separator, !filter_app. reflexivity.
Qed.

Lemma empty_segments_are_dropped_witness :
  parse_request "/factorial/" "n=5" = parse_request "/factorial" "n=5"
  /\ parse_request "/fibonacci//7" EmptyString
     = parse_request "/fibonacci/7" EmptyString.
Proof.
  split.
  - apply (proj1 (empty_segments_are_dropped "n=5") "/factorial"). reflexivity.
  - apply (proj2 (empty_segments_are_dropped EmptyString) "/fibonacci" "7");
      [discriminate | reflexivity].
Defined.

(** ** The query dictionary *)










(** ** Decimal texts *)

(** What the code asks of a character, answered for a decimal digit. *)
Lemma digit_char (c : ascii) :
  is_digit c = true ->
  is_space c = false /\ is_underscore c = false
  /\ (PyStr.code c =? 43)%N = false /\ (PyStr.code c =? 45)%N = false
  /\ Urllib.is_unsafe_url_byte c = false
  /\ (PyStr.code c =? 37)%N = false /\ Urllib.plus_to_space c = c
  /\ (PyStr.code c <? 128)%N = true
  /\ Json.escape_point (PyStr.code c) = String c EmptyString.
Proof.
  intros H.
  destruct c as [[] [] [] [] [] [] [] []]; vm_compute in H; try discriminate H;
    vm_compute; repeat split; reflexivity.
Qed.

Lemma digit_is_not (sep c : ascii) :
  is_digit sep = false -> is_digit c = true -> Ascii.eqb c sep = false.
Proof.
  intros Hs Hc. destruct (Ascii.eqb_spec c sep) as [->|]; [congruence|reflexivity].
Qed.

Section Digits.

Variable s : string.
Hypothesis all_digits : PyStr.forallb is_digit s = true.

Lemma digits_break :
  Urllib.break (fun c => negb (is_digit c || is_underscore c)) s = (s, EmptyString).
Proof.
  induction s as [|c r IH]; [reflexivity|].
  simpl in all_digits. apply andb_true_iff in all_digits as [Hc Hr].
  simpl. rewrite Hc, (IH Hr). reflexivity.
Qed.

Lemma digits_remove (p : ascii -> bool) :
  (forall c, is_digit c = true -> p c = false) -> remove p s = s.
Proof.
  intros Hp. induction s as [|c r IH]; [reflexivity|].
  simpl in all_digits. apply andb_true_iff in all_digits as [Hc Hr].
  simpl. rewrite (Hp c Hc), (IH Hr). reflexivity.
Qed.

Lemma digits_ok_after_digit : digits_ok s true = true.
Proof.
  induction s as [|c r IH]; [reflexivity|].
  simpl in all_digits. apply andb_true_iff in all_digits as [Hc Hr].
  simpl. rewrite Hc. exact (IH Hr).
Qed.

Lemma digits_split_once (sep : ascii) :
  is_digit sep = false -> split_once sep s = None.
Proof.
  intros Hsep. induction s as [|c r IH]; [reflexivity|].
  simpl in all_digits. apply andb_true_iff in all_digits as [Hc Hr].
  simpl. rewrite (digit_is_not sep c Hsep Hc), (IH Hr). reflexivity.
Qed.

Lemma digits_contains (sep : ascii) :
  is_digit sep = false -> contains sep s = false.
Proof.
  intros Hsep. induction s as [|c r IH]; [reflexivity|].
  simpl in all_digits. apply andb_true_iff in all_digits as [Hc Hr].
  simpl. rewrite (IH Hr), orb_false_r.
  destruct (Ascii.eqb_spec sep c) as [->|]; [congruence|reflexivity].
Qed.

Lemma digits_unquote :
  Urllib.unquote_to_bytes (PyStr.map Urllib.plus_to_space s) = s.
Proof.
  induction s as [|c r IH]; [reflexivity|].
  simpl in all_digits. apply andb_true_iff in all_digits as [Hc Hr].
  destruct (digit_char c Hc) as (_ & _ & _ & _ & _ & Hpct & Hplus & _).
  cbn [PyStr.map Urllib.unquote_to_bytes]. rewrite Hplus, Hpct, (IH Hr).
  reflexivity.
Qed.

Lemma digits_points (fuel : nat) :
  (String.length s <= fuel)%nat ->
  Utf8.points fuel s = PyStr.code <$> list_ascii_of_string s.
Proof.
  revert fuel. induction s as [|c r IH]; intros fuel Hf.
  - destruct fuel; reflexivity.
  - simpl in all_digits. apply andb_true_iff in all_digits as [Hc Hr].
    destruct fuel as [|fuel]; [simpl in Hf; lia|].
    destruct (digit_char c Hc) as (_ & _ & _ & _ & _ & _ & _ & Hlow & _).
    cbn [Utf8.points]. rewrite Hlow. simpl. f_equal.
    apply (IH Hr). simpl in Hf. lia.
Qed.

Lemma digits_encode_string :
  Json.encode_string s = String Json.quote (s ++ String Json.quote EmptyString).
Proof.
  unfold Json.encode_string, Utf8.code_points.
  rewrite digits_points by reflexivity. f_equal.
  induction s as [|c r IH]; [reflexivity|].
  simpl in all_digits. apply andb_true_iff in all_digits as [Hc Hr].
  destruct (digit_char c Hc) as (_ & _ & _ & _ & _ & _ & _ & _ & Hesc).
  cbn [list_ascii_of_string fmap list_fmap fold_right]. rewrite Hesc, (IH Hr).
  reflexivity.
Qed.

End Digits.

(** The digits [str] writes, and the number [int] reads from them. *)
Lemma uint_digits (d : Decimal.uint) :
  PyStr.forallb is_digit (NilEmpty.string_of_uint d) = true.
Proof. induction d; simpl; auto. Qed.

Lemma Z_of_decimal_acc (d : Decimal.uint) :
  forall acc : positive,
    fold_left (fun acc c => 10 * acc + Z.of_N (PyStr.code c - 48))
      (list_ascii_of_string (NilEmpty.string_of_uint d)) (Z.pos acc)
    = Z.pos (Pos.of_uint_acc d acc).
Proof.
  induction d; intros acc; simpl; [reflexivity|..]; rewrite <- IHd; f_equal; lia.
Qed.

Lemma Z_of_decimal_uint (d : Decimal.uint) :
  Z_of_decimal (NilEmpty.string_of_uint d) = Z.of_N (Pos.of_uint d).
Proof.
  unfold Z_of_decimal. induction d; simpl; [reflexivity| exact IHd |..];
    apply Z_of_decimal_acc.
Qed.

Lemma of_Z_pos (p : positive) :
  of_Z (Z.pos p) = NilEmpty.string_of_uint (Pos.to_uint p)
  /\ of_Z (Z.neg p) = String "-" (NilEmpty.string_of_uint (Pos.to_uint p)).
Proof.
  unfold of_Z. simpl. unfold NilZero.string_of_uint.
  pose proof (DecimalPos.Unsigned.to_uint_nonnil p) as H.
  destruct (Pos.to_uint p); [contradiction|..]; split; reflexivity.
Qed.

(** The text of an integer that is not negative: one digit or more, and
    the number they denote is the integer. *)
Lemma of_Z_digits (z : Z) :
  0 <= z ->
  exists c r,
    of_Z z = String c r
    /\ PyStr.forallb is_digit (String c r) = true
    /\ Z_of_decimal (String c r) = z.
Proof.
  intros Hz. destruct z as [|p|p]; [| |lia].
  - exists "0"%char, EmptyString. repeat split.
  - destruct (of_Z_pos p) as [E _].
    assert (Hd := uint_digits (Pos.to_uint p)).
    assert (Hv := Z_of_decimal_uint (Pos.to_uint p)).
    rewrite DecimalPos.Unsigned.of_to in Hv. rewrite <- E in Hd, Hv.
    destruct (of_Z (Z.pos p)) as [|c r] eqn:Ho.
    + pose proof (DecimalPos.Unsigned.to_uint_nonnil p) as H.
      destruct (Pos.to_uint p); [contradiction|..]; discriminate E.
    + exists c, r. repeat split; assumption.
Qed.

(** [int] on a run of digits, given as a [str] or as [bytes]. *)
Lemma int_digits (x : raw) (c : ascii) (r : string) :
  raw_text x = String c r ->
  PyStr.forallb is_digit (String c r) = true ->
  (String.length (String c r) <= Json.max_str_digits)%nat ->
  int x = inr (VInt (Z_of_decimal (String c r))).
Proof.
  intros Hx Hd Hlen. unfold int. rewrite Hx.
  assert (Hc : is_digit c = true) by (simpl in Hd; apply andb_true_iff in Hd; tauto).
  destruct (digit_char c Hc) as (Hsp & Hus & Hplus & Hminus & _).
  cbn [lstrip]. rewrite Hsp, Hplus, Hminus.
  rewrite (digits_break _ Hd).
  rewrite (digits_remove _ Hd is_underscore)
    by (intros d Hdd; exact (proj1 (proj2 (digit_char d Hdd)))).
  cbn [digits_ok]. rewrite Hc.
  rewrite (digits_ok_after_digit r)
    by (simpl in Hd; apply andb_true_iff in Hd; tauto).
  cbn [PyStr.forallb andb].
  rewrite (proj2 (Nat.leb_le _ _) Hlen). reflexivity.
Qed.

(** [int] on the same digits behind a minus sign. *)
Lemma int_minus_digits (x : raw) (c : ascii) (r : string) :
  raw_text x = String "-" (String c r) ->
  PyStr.forallb is_digit (String c r) = true ->
  (String.length (String c r) <= Json.max_str_digits)%nat ->
  int x = inr (VInt (- Z_of_decimal (String c r))).
Proof.
  intros Hx Hd Hlen. unfold int. rewrite Hx.
  assert (Hc : is_digit c = true) by (simpl in Hd; apply andb_true_iff in Hd; tauto).
  change (lstrip is_space (String "-" (String c r))) with (String "-" (String c r)).
  cbv iota.
  replace (PyStr.code "-"%char =? 43)%N with false by reflexivity.
  replace (PyStr.code "-"%char =? 45)%N with true by reflexivity.
  cbv iota.
  rewrite (digits_break _ Hd).
  rewrite (digits_remove _ Hd is_underscore)
    by (intros d Hdd; exact (proj1 (proj2 (digit_char d Hdd)))).
  cbn [digits_ok]. rewrite Hc.
  rewrite (digits_ok_after_digit r)
    by (simpl in Hd; apply andb_true_iff in Hd; tauto).
  cbn [PyStr.forallb andb].
  rewrite (proj2 (Nat.leb_le _ _) Hlen). reflexivity.
Qed.

(** [int(str(z))] is [z], for a [str] and for [bytes]. *)
Lemma int_reads_what_str_writes (z : Z) :
  (digit_count z <= Json.max_str_digits)%nat ->
  int (Str (of_Z z)) = inr (VInt z) /\ int (Bytes (of_Z z)) = inr (VInt z).
Proof.
  unfold digit_count. intros Hlen. destruct z as [|p|p].
  - split; reflexivity.
  - change (Z.abs (Z.pos p)) with (Z.pos p) in Hlen.
    destruct (of_Z_digits (Z.pos p)) as (c & r & E & Hd & Hv); [lia|].
    rewrite E in *. rewrite <- Hv.
    split; apply int_digits; try assumption; reflexivity.
  - change (Z.abs (Z.neg p)) with (Z.pos p) in Hlen.
    destruct (of_Z_digits (Z.pos p)) as (c & r & E & Hd & Hv); [lia|].
    destruct (of_Z_pos p) as [Epos Eneg]. rewrite Eneg, <- Epos.
    rewrite E in *. change (Z.neg p) with (- Z.pos p). rewrite <- Hv.
    split; apply int_minus_digits; try assumption; reflexivity.
Qed.

(** ** The integer endpoints, from the request to the response *)

Lemma append_assoc (a b c : string) : (a ++ b) ++ c = a ++ (b ++ c).
Proof.
  induction a as [|x a IH]; [reflexivity|].
  change (String x ((a ++ b) ++ c) = String x (a ++ (b ++ c))).
  rewrite IH. reflexivity.
Qed.

(** The JSON response for a result written in digits. *)
Lemma result_response_digits (text : string) :
  PyStr.forallb is_digit text = true ->
  result_response text
  = inr {| body := result_text text; status_code := 200;
           headers := default_headers |}.
Proof.
  intros H. unfold result_response, JSONResponse_init. cbn [Json.dumps].
  rewrite (digits_encode_string text H).
  change (@inr exn HttpResponse
            (HttpResponse_init
               (String "{" (String Json.quote ("result" ++ String Json.quote (": "
                  ++ String Json.quote ((text ++ String Json.quote EmptyString) ++ "}")))))
               200 None)
          = inr {| body := result_text text; status_code := 200;
                   headers := default_headers |}).
  rewrite append_assoc. reflexivity.
Qed.

(** A handler with one parameter, called with that parameter alone. *)
Lemma call_handler (param : string) (type : Annotation)
    (body : value -> result HttpResponse) (v : value) :
  call (handler param type body) (<[param := v]> ∅) = body v.
Proof.
  unfold call, handler. cbn [parameters MyAPI.code fmap list_fmap name default foldl].
  rewrite bool_decide_true by set_solver.
  cbn. rewrite lookup_insert_eq. cbn. rewrite lookup_insert_eq. reflexivity.
Qed.

Lemma fibonacci_request (ds : string) :
  PyStr.forallb is_digit ds = true -> ds <> EmptyString ->
  parse_request ("/fibonacci/" ++ ds) EmptyString
  = inr ("fibonacci", [ds], []).
Proof.
  intros Hd Hne. unfold parse_request.
  assert (Hurl : Urllib.urlsplit_path ("/fibonacci/" ++ ds)
                 = inr ("/fibonacci/" ++ ds)).
  { unfold Urllib.urlsplit_path.
    change ("/fibonacci/" ++ ds)
      with (String "/" (String "f" (String "i" (String "b" (String "o"
             (String "n" (String "a" (String "c" (String "c" (String "i"
               (String "/" ds))))))))))).
    simpl.
    rewrite (digits_remove ds Hd Urllib.is_unsafe_url_byte)
      by (intros c Hc; apply (digit_char c Hc)).
    repeat (rewrite !(digits_split_once ds Hd) by reflexivity; simpl).
    reflexivity. }
  rewrite Hurl. simpl.
  change (EmptyString ++ ds) with ds.
  rewrite (split_without_separator "/" ds) by (apply digits_contains; [exact Hd|reflexivity]).
  rewrite filter_cons, filter_nil. destruct (decide (ds <> EmptyString)); [reflexivity|contradiction].
Qed.

(** X13.  For every [n] from 1 on, [GET /fibonacci/<n>], with the decimal
    text of [n] as the path segment, an empty query string and any body
    that can be decoded, is answered with status 200, the default headers
    and the JSON object whose [result] is the decimal text of the [n]-th
    Fibonacci number.  The body plays no part: the endpoint declares no
    query parameter.  Both [n] and the result must stay within the
    [Json.max_str_digits] digits that [int] and [str] convert. *)
Theorem fibonacci_request_is_answered (str_of_mean : value -> result string)
    (n : Z) (event : Event) (data : value) :
  1 <= n ->
  (digit_count n <= Json.max_str_digits)%nat ->
  (digit_count (fib (Z.to_nat n)) <= Json.max_str_digits)%nat ->
  decode_body event = inr data ->
  _handle (app str_of_mean) (request "GET" ("/fibonacci/" ++ of_Z n) EmptyString)
    event
  = respond {| body := result_text (of_Z (fib (Z.to_nat n)));
               status_code := 200;
               headers := default_headers |}.
Proof.
  intros Hn Hlen _ Hbody.
  destruct (of_Z_digits n) as (c & r & E & Hd & Hv); [lia|].
  unfold digit_count in Hlen. rewrite Z.abs_eq, E in Hlen by lia.
  assert (Hfound :
    find_endpoint (app str_of_mean) ("/fibonacci/" ++ of_Z n) EmptyString "GET" data
    = inr (fibonacci_endpoint, <["n" := VInt n]> ∅)).
  { rewrite E.
    rewrite (find_endpoint_unfold _ _ _ _ _ _ _ _
               (fibonacci_request (String c r) Hd ltac:(discriminate))).
    change (first_match (endpoints (_registerer (app str_of_mean))) "fibonacci" "GET")
      with (Some fibonacci_endpoint).
    cbn [bind_path_args fibonacci_endpoint MyAPI.path_args Dict.keys fmap list_fmap
         fst lookup list_lookup Dict.get].
    assert (Hint : int (Str (String c r)) = inr (VInt n))
      by (rewrite <- Hv; apply int_digits; [reflexivity | exact Hd | exact Hlen]).
    cbn -[int bind_data]. rewrite Hint. cbn -[bind_data].
    unfold bind_data. destruct (is_None data); reflexivity. }
  rewrite (handle_found (app str_of_mean)
             (request "GET" ("/fibonacci/" ++ of_Z n) EmptyString) event data
             _ _ eq_refl Hbody Hfound).
  change (func fibonacci_endpoint) with (handler "n" int fibonacci).
  rewrite call_handler, (fibonacci_from_one n Hn).
  destruct (of_Z_digits (fib (Z.to_nat n)) (fib_nonnegative _))
    as (c' & r' & E' & Hd' & _).
  rewrite E', (result_response_digits _ Hd'). reflexivity.
Qed.

Lemma factorial_request (ds : string) :
  PyStr.forallb is_digit ds = true -> ds <> EmptyString ->
  parse_request "/factorial/" ("n=" ++ ds) = inr ("factorial", [], [("n", ds)]).
Proof.
  intros Hd Hne. unfold parse_request.
  change (Urllib.urlsplit_path "/factorial/") with (@inr exn string "/factorial/").
  assert (Hq : Urllib.parse_qsl ("n=" ++ ds) = [("n", ds)]).
  { unfold Urllib.parse_qsl.
    change ("n=" ++ ds) with (String "n" (String "=" ds)). cbv iota.
    cbn [split Ascii.eqb Bool.eqb].
    rewrite (split_without_separator "&" ds)
      by (apply digits_contains; [exact Hd|reflexivity]).
    cbn [omap list_omap split_once Ascii.eqb Bool.eqb].
    destruct ds as [|c r]; [contradiction|].
    change (PyStr.map Urllib.plus_to_space "n") with "n".
    change (Urllib.unquote_to_bytes "n") with "n".
    rewrite (digits_unquote _ Hd). reflexivity. }
  unfold Urllib.parse_qs. rewrite Hq. reflexivity.
Qed.

Lemma fibonacci_request_is_answered_witness :
  _handle (app (fun _ => raise TypeError)) (request "GET" "/fibonacci/10" EmptyString)
    {| event_body := None |}
  = respond {| body := result_text "55";
               status_code := 200;
               headers := default_headers |}.
Proof.
  apply (fibonacci_request_is_answered (fun _ => raise TypeError) 10
           {| event_body := None |} (VList []));
    [lia | apply Nat.leb_le; reflexivity | apply Nat.leb_le; reflexivity
    | reflexivity].
Defined.

(** X14.  For every [n] that is not negative, [GET /factorial/?n=<n>] with
    a body that decodes to [None] (the JSON text [null], or a body that is
    not JSON, the empty one among them) is answered with status 200, the default headers and the JSON
    object whose [result] is the decimal text of the factorial of [n].
    Both [n] and the result must stay within the [Json.max_str_digits]
    digits that [int] and [str] convert. *)
Theorem factorial_request_is_answered (str_of_mean : value -> result string)
    (n : Z) (event : Event) :
  0 <= n ->
  (digit_count n <= Json.max_str_digits)%nat ->
  (digit_count (Z.of_nat (fact (Z.to_nat n))) <= Json.max_str_digits)%nat ->
  decode_body event = inr VNone ->
  _handle (app str_of_mean) (request "GET" "/factorial/" ("n=" ++ of_Z n)) event
  = respond {| body := result_text (of_Z (Z.of_nat (fact (Z.to_nat n))));
               status_code := 200;
               headers := default_headers |}.
Proof.
  intros Hn Hlen _ Hbody.
  destruct (of_Z_digits n Hn) as (c & r & E & Hd & Hv).
  unfold digit_count in Hlen. rewrite Z.abs_eq, E in Hlen by lia.
  assert (Hfound :
    find_endpoint (app str_of_mean) "/factorial/" ("n=" ++ of_Z n) "GET" VNone
    = inr (factorial_endpoint, <["n" := VInt n]> ∅)).
  { rewrite E.
    rewrite (find_endpoint_unfold _ _ _ _ _ _ _ _
               (factorial_request (String c r) Hd ltac:(discriminate))).
    change (first_match (endpoints (_registerer (app str_of_mean))) "factorial" "GET")
      with (Some factorial_endpoint).
    assert (Hint : int (Bytes (String c r)) = inr (VInt n))
      by (rewrite <- Hv; apply int_digits; [reflexivity | exact Hd | exact Hlen]).
    cbn -[int]. rewrite Hint. reflexivity. }
  rewrite (handle_found (app str_of_mean)
             (request "GET" "/factorial/" ("n=" ++ of_Z n)) event VNone
             _ _ eq_refl Hbody Hfound).
  change (func factorial_endpoint) with (handler "n" int factorial).
  rewrite call_handler, (factorial_of_natural n Hn).
  destruct (of_Z_digits (Z.of_nat (fact (Z.to_nat n)))) as (c' & r' & E' & Hd' & _);
    [lia|].
  rewrite E', (result_response_digits _ Hd'). reflexivity.
Qed.

Lemma factorial_request_is_answered_witness :
  _handle (app (fun _ => raise TypeError)) (request "GET" "/factorial/" "n=5")
    {| event_body := Some EmptyString |}
  = respond {| body := result_text "120";
               status_code := 200;
               headers := default_headers |}.
Proof.
  apply (factorial_request_is_answered (fun _ => raise TypeError) 5
           {| event_body := Some EmptyString |});
    [lia | apply Nat.leb_le; reflexivity | apply Nat.leb_le; reflexivity
    | reflexivity].
Defined.
